(** * SPIRE: SPIFFE ID validation ([pkg/common/idutil]) and the disk
    upstream CA plugin ([pkg/server/plugin/upstreamca/disk])

  A shallow embedding of [pkg/common/idutil/spiffeid.go] together with the
  parts of Go's [strings] and [net/url] packages that it calls, followed by
  the properties the specification states about them. *)

From Stdlib Require Import String Ascii List Bool ZArith NArith PeanoNat Lia.
Import ListNotations.

Local Open Scope string_scope.
Local Open Scope bool_scope.

(* ===================================================================== *)
(** ** Go runtime: results and panics *)
(* ===================================================================== *)

Module go.

(** A Go call either returns a value or panics. *)
Inductive result (A : Type) : Type :=
| Return (a : A)
| Panic (msg : string).
Arguments Return {A} a.
Arguments Panic {A} msg.

Definition bind {A B : Type} (r : result A) (k : A -> result B) : result B :=
  match r with
  | Return a => k a
  | Panic msg => Panic msg
  end.

(** The run-time panic raised by reading a field through a nil pointer. *)
Definition nil_dereference : string :=
  "runtime error: invalid memory address or nil pointer dereference".

(** Go slice expressions on strings: [s[i:j]], [s[i:]], [s[:j]]. They are
    only applied below at indices that are in range. *)
Definition slice (s : string) (i j : nat) : string := substring i (j - i) s.
Definition slice_from (s : string) (i : nat) : string :=
  substring i (String.length s - i) s.
Definition slice_to (s : string) (j : nat) : string := substring 0 j s.

(** The byte [0x22], the double quote. *)
Definition double_quote : ascii := "034"%char.

(** [s] between double quotes, as it stands inside a raw string literal. *)
Definition quoted (s : string) : string :=
  String double_quote (s ++ String double_quote EmptyString).

End go.

Notation "x <- c ;; k" := (go.bind c (fun x => k))
(at level 61, c at next level, right associativity).

(* ===================================================================== *)
(** ** Package [strings] *)
(* ===================================================================== *)

Module strings.
Import go.

(** [strings.HasPrefix(s, prefix)] *)
Definition HasPrefix (s pre : string) : bool := String.prefix pre s.

(** [strings.HasSuffix(s, suffix)] *)
Definition HasSuffix (s suf : string) : bool :=
  (String.length suf <=? String.length s)%nat
  && (slice_from s (String.length s - String.length suf) =? suf).

(** [strings.Index(s, sep)]; [None] stands for [-1]. *)
Definition Index (s sep : string) : option nat := String.index 0 sep s.

(** [strings.Contains(s, substr)] *)
Definition Contains (s sub : string) : bool :=
  match Index s sub with Some _ => true | None => false end.

Fixpoint LastIndexByte_from (i : nat) (s : string) (c : ascii)
    (found : option nat) : option nat :=
  match s with
  | EmptyString => found
  | String a s' =>
      LastIndexByte_from (S i) s' c (if (a =? c)%char then Some i else found)
  end.

(** [strings.LastIndexByte(s, c)], also [strings.LastIndex] with a
    one-byte separator; [None] stands for [-1]. *)
Definition LastIndexByte (s : string) (c : ascii) : option nat :=
  LastIndexByte_from 0 s c None.

(** [strings.Count(s, substr)] for a one-byte [substr]. *)
Fixpoint CountByte (s : string) (c : ascii) : nat :=
  match s with
  | EmptyString => 0
  | String a s' => (if (a =? c)%char then 1 else 0) + CountByte s' c
  end.

(** [strings.Cut(s, sep)] *)
Definition Cut (s sep : string) : string * string * bool :=
  match Index s sep with
  | Some i => (slice_to s i, slice_from s (i + String.length sep), true)
  | None => (s, "", false)
  end.

Definition lower_byte (c : ascii) : ascii :=
  if ("A" <=? c)%char && (c <=? "Z")%char
  then ascii_of_N (N_of_ascii c + 32)
  else c.

(** [strings.ToLower(s)] on ASCII text: [net/url] applies it to a scheme
    token only, which [getScheme] restricts to ASCII letters, digits and
    [+-.]; on such input Go's Unicode-aware mapping is this byte map. *)
Fixpoint ToLower (s : string) : string :=
  match s with
  | EmptyString => EmptyString
  | String c s' => String (lower_byte c) (ToLower s')
  end.

End strings.

(* ===================================================================== *)
(** ** Package [net/netip] (Go standard library): which texts are addresses *)
(* ===================================================================== *)

Module netip.
Import go strings.

Definition is_dec_digit (c : ascii) : bool := ("0" <=? c)%char && (c <=? "9")%char.

Definition is_hex_digit (c : ascii) : bool :=
  is_dec_digit c
  || (("a" <=? c)%char && (c <=? "f")%char)
  || (("A" <=? c)%char && (c <=? "F")%char).

(** The loop of [parseIPv4Fields] over the text of the fields: [val] is the
    value of the current octet, [pos] the number of octets stored,
    [digLen] the digits read of the current octet, [first] whether the
    byte is the first one and [prevDot] whether the byte before it is a
    dot. [true] when the text is four octets. *)
Fixpoint parseIPv4Fields_loop (s : string) (val pos digLen : nat)
    (first prevDot : bool) : bool :=
  match s with
  | EmptyString => negb (pos <? 3)%nat
  | String c rest =>
      if is_dec_digit c then
        if (digLen =? 1)%nat && (val =? 0)%nat then false
        else
          let val := val * 10 + (nat_of_ascii c - nat_of_ascii "0") in
          if (255 <? val)%nat then false
          else parseIPv4Fields_loop rest val pos (S digLen) false false
      else if (c =? ".")%char then
        if first || (rest =? "") || prevDot then false
        else if (pos =? 3)%nat then false
        else parseIPv4Fields_loop rest 0 (S pos) 0 false true
      else false
  end.

(** [parseIPv4Fields] succeeds on [s]. *)
Definition parseIPv4Fields (s : string) : bool :=
  parseIPv4Fields_loop s 0 0 0 true false.

(** The number of hex digits [s] starts with. *)
Fixpoint leading_hex (s : string) : nat :=
  match s with
  | EmptyString => 0
  | String c rest => if is_hex_digit c then S (leading_hex rest) else 0
  end.

(** The end of [parseIPv6]: the whole text must be used, and the ellipsis
    is there exactly when fewer than 16 bytes were parsed. *)
Definition parseIPv6_end (i : nat) (ellipsis : bool) (s : string) : bool :=
  if negb (s =? "") then false
  else if (i <? 16)%nat then ellipsis
  else negb ellipsis.

(** The loop of [parseIPv6], one hex group per round: [i] is the number of
    address bytes parsed, [ellipsis] whether a [::] was seen. Every round
    adds two bytes, so nine rounds of [fuel] reach the end of the loop. *)
Fixpoint parseIPv6_loop (fuel i : nat) (ellipsis : bool) (s : string) : bool :=
  match fuel with
  | O => parseIPv6_end i ellipsis s
  | S fuel =>
      if negb (i <? 16)%nat then parseIPv6_end i ellipsis s
      else
        let off := leading_hex s in
        if (4 <? off)%nat then false
        else if (off =? 0)%nat then false
        else if HasPrefix (slice_from s off) "." then
          (* a trailing IPv4 address *)
          if negb ellipsis && negb (i =? 12)%nat then false
          else if (16 <? i + 4)%nat then false
          else if negb (parseIPv4Fields s) then false
          else parseIPv6_end (i + 4) ellipsis ""
        else
          let i := i + 2 in
          let s := slice_from s off in
          if s =? "" then parseIPv6_end i ellipsis s
          else if negb (HasPrefix s ":") then false
          else if (String.length s =? 1)%nat then false
          else
            let s := slice_from s 1 in
            if HasPrefix s ":" then
              if ellipsis then false
              else
                let s := slice_from s 1 in
                if s =? "" then parseIPv6_end i true s
                else parseIPv6_loop fuel i true s
            else parseIPv6_loop fuel i ellipsis s
  end.

(** [parseIPv6(in)] succeeds. *)
Definition parseIPv6 (text : string) : bool :=
  let '(s, zone_ok) :=
    match Index text "%" with
    | Some i => (slice_to text i, negb (slice_from text (i + 1) =? ""))
    | None => (text, true)
    end in
  if negb zone_ok then false
  else if HasPrefix s "::" then
    let s := slice_from s 2 in
    if s =? "" then true else parseIPv6_loop 9 0 true s
  else parseIPv6_loop 9 0 false s.

(** What [parseHost] asks of an address. *)
Inductive family : Type :=
| IPv4
| IPv6.

Fixpoint ParseAddr_scan (whole s : string) : option family :=
  match s with
  | EmptyString => None
  | String c rest =>
      if (c =? ".")%char then (if parseIPv4Fields whole then Some IPv4 else None)
      else if (c =? ":")%char then (if parseIPv6 whole then Some IPv6 else None)
      else if (c =? "%")%char then None
      else ParseAddr_scan whole rest
  end.

(** [netip.ParseAddr(s)]: the family of the address, [None] for an error.
    [Addr.Is4] holds of the result exactly for [IPv4]. *)
Definition ParseAddr (s : string) : option family := ParseAddr_scan s s.

End netip.

(* ===================================================================== *)
(** ** Package [net/url] (Go standard library), as far as [idutil] uses it *)
(* ===================================================================== *)

Module net_url.
Import go strings.

(** [type Userinfo struct { username, password string; passwordSet bool }] *)
Record Userinfo : Type := mkUserinfo {
  username : string;
  password : string;
  passwordSet : bool
}.

(** [type URL struct]. [User] is a [*Userinfo]: [None] is the nil pointer. *)
Record URL : Type := mkURL {
  Scheme : string;
  Opaque : string;
  User : option Userinfo;
  Host : string;
  Path : string;
  RawPath : string;
  OmitHost : bool;
  ForceQuery : bool;
  RawQuery : string;
  Fragment : string;
  RawFragment : string
}.

(** The zero value [url.URL{}]. *)
Definition zero : URL := mkURL "" "" None "" "" "" false false "" "" "".

(** [*u == (url.URL{})]: Go compares structs field by field; the [User]
    pointer is compared with nil. *)
Definition is_zero (u : URL) : bool :=
  (Scheme u =? "") && (Opaque u =? "")
  && (match User u with None => true | Some _ => false end)
  && (Host u =? "") && (Path u =? "") && (RawPath u =? "")
  && negb (OmitHost u) && negb (ForceQuery u)
  && (RawQuery u =? "") && (Fragment u =? "") && (RawFragment u =? "").

Fixpoint all_digits (s : string) : bool :=
  match s with
  | EmptyString => true
  | String b s' =>
      if (b <? "0")%char || ("9" <? b)%char then false else all_digits s'
  end.

(** [validOptionalPort(port)]: [port] is either empty or ":" followed by
    digits. *)
Definition validOptionalPort (port : string) : bool :=
  match port with
  | EmptyString => true
  | String c digits => if (c =? ":")%char then all_digits digits else false
  end.

(** [splitHostPort(hostPort)] *)
Definition splitHostPort (hostPort : string) : string * string :=
  let '(host, port) :=
    match LastIndexByte hostPort ":" with
    | Some colon =>
        if validOptionalPort (slice_from hostPort colon)
        then (slice_to hostPort colon, slice_from hostPort (colon + 1))
        else (hostPort, "")
    | None => (hostPort, "")
    end in
  if HasPrefix host "[" && HasSuffix host "]"
  then (slice host 1 (String.length host - 1), port)
  else (host, port).

(** [func (u *URL) Port() string] *)
Definition Port (u : URL) : string := snd (splitHostPort (Host u)).

(** *** Parsing: [url.Parse] *)

(** The errors [url.Parse] produces, one constructor per error value of
    the library. *)
Inductive parse_error : Type :=
| ErrControlCharacter      (* "net/url: invalid control character in URL" *)
| ErrEmptyURL              (* "empty url" *)
| ErrMissingScheme         (* "missing protocol scheme" *)
| ErrInvalidURIForRequest  (* "invalid URI for request" *)
| ErrColonInFirstSegment   (* "first path segment in URL cannot contain colon" *)
| ErrMissingBracket        (* "missing ']' in host" *)
| ErrInvalidPort (colonPort : string)  (* "invalid port %q after host" *)
| ErrInvalidUserinfo       (* "net/url: invalid userinfo" *)
| ErrInvalidHost           (* "invalid host: " and the error of [netip.ParseAddr] *)
| ErrInvalidIPLiteral      (* "invalid IP-literal" *)
| EscapeError (s : string)
| InvalidHostError (s : string).

(** [type Error struct { Op, URL string; Err error }] *)
Record Error : Type := mkError {
  Op : string;
  Error_URL : string;
  Err : parse_error
}.

Inductive encoding : Type :=
| encodePath
| encodePathSegment
| encodeHost
| encodeZone
| encodeUserPassword
| encodeQueryComponent
| encodeFragment.

Definition is_host_mode (mode : encoding) : bool :=
  match mode with encodeHost | encodeZone => true | _ => false end.

Definition between (lo c hi : ascii) : bool := (lo <=? c)%char && (c <=? hi)%char.

Definition is_alpha (c : ascii) : bool := between "a" c "z" || between "A" c "Z".
Definition is_digit (c : ascii) : bool := between "0" c "9".

Fixpoint mem_byte (c : ascii) (set : string) : bool :=
  match set with
  | EmptyString => false
  | String a set' => (a =? c)%char || mem_byte c set'
  end.

(** [ishex(c)] *)
Definition ishex (c : ascii) : bool :=
  between "0" c "9" || between "a" c "f" || between "A" c "F".

(** [unhex(c)] *)
Definition unhex (c : ascii) : N :=
  if between "0" c "9" then N_of_ascii c - N_of_ascii "0"
  else if between "a" c "f" then N_of_ascii c - N_of_ascii "a" + 10
  else if between "A" c "F" then N_of_ascii c - N_of_ascii "A" + 10
  else 0.

(** [shouldEscape(c, mode)] *)
Definition shouldEscape (c : ascii) (mode : encoding) : bool :=
  if is_alpha c || is_digit c then false
  else if is_host_mode mode
          && (mem_byte c "!$&'()*+,;=:[]<>" || (c =? double_quote)%char)
  then false
  else if mem_byte c "-_.~" then false
  else if mem_byte c "$&+,/:;=?@" then
    match mode with
    | encodePath => (c =? "?")%char
    | encodePathSegment => mem_byte c "/;,?"
    | encodeUserPassword => mem_byte c "@/?:"
    | encodeQueryComponent => true
    | encodeFragment => false
    | encodeHost | encodeZone => true
    end
  else if match mode with encodeFragment => mem_byte c "!()*" | _ => false end
  then false
  else true.

(** The first loop of [unescape(s, mode)]: every [%] must be followed by
    two hex digits, and host text may only contain host bytes. [None]
    means the text is acceptable. *)
Fixpoint unescape_check (s : string) (mode : encoding) : option parse_error :=
  match s with
  | EmptyString => None
  | String c s1 =>
      if (c =? "%")%char then
        match s1 with
        | String h (String l s3) =>
            if negb (ishex h) || negb (ishex l)
            then Some (EscapeError (slice_to s 3))
            else if match mode with encodeHost => true | _ => false end
                    && (unhex h <? 8)%N
                    && negb (slice_to s 3 =? "%25")
            then Some (EscapeError (slice_to s 3))
            else if match mode with encodeZone => true | _ => false end
                    && negb (slice_to s 3 =? "%25")
                    && negb (ascii_of_N (unhex h * 16 + unhex l) =? " ")%char
                    && shouldEscape (ascii_of_N (unhex h * 16 + unhex l)) encodeHost
            then Some (EscapeError (slice_to s 3))
            else unescape_check s3 mode
        | _ => Some (EscapeError (slice_to s 3))
        end
      else if is_host_mode mode && (c <? "128")%char
              && negb (c =? "+")%char && shouldEscape c encodeHost
      then Some (InvalidHostError (String c EmptyString))
      else unescape_check s1 mode
  end.

(** The second loop of [unescape]: decode [%XX], and [+] as a space in
    query components. It is run on text that passed [unescape_check]. *)
Fixpoint unescape_decode (s : string) (mode : encoding) : string :=
  match s with
  | EmptyString => EmptyString
  | String c s1 =>
      if (c =? "%")%char then
        match s1 with
        | String h (String l s3) =>
            String (ascii_of_N (unhex h * 16 + unhex l)) (unescape_decode s3 mode)
        | _ => EmptyString
        end
      else if (c =? "+")%char
              && match mode with encodeQueryComponent => true | _ => false end
      then String " " (unescape_decode s1 mode)
      else String c (unescape_decode s1 mode)
  end.

(** [unescape(s, mode)]. (The library returns [s] itself when it holds
    no [%] and no decodable [+]; decoding such text gives [s] back.) *)
Definition unescape (s : string) (mode : encoding) : string + parse_error :=
  match unescape_check s mode with
  | Some e => inr e
  | None => inl (unescape_decode s mode)
  end.

Definition upperhex (n : N) : ascii :=
  match String.get (N.to_nat n) "0123456789ABCDEF" with
  | Some c => c
  | None => "0"%char
  end.

(** [escape(s, mode)] *)
Fixpoint escape (s : string) (mode : encoding) : string :=
  match s with
  | EmptyString => EmptyString
  | String c s' =>
      if shouldEscape c mode then
        if (c =? " ")%char
           && match mode with encodeQueryComponent => true | _ => false end
        then String "+" (escape s' mode)
        else String "%" (String (upperhex (N_of_ascii c / 16))
               (String (upperhex (N_of_ascii c mod 16)) (escape s' mode)))
      else String c (escape s' mode)
  end.

(** The outcome of the scan in [getScheme]: no scheme, a leading colon,
    or the index of the colon that ends the scheme. *)
Inductive scheme_scan : Type :=
| NoScheme
| LeadingColon
| SchemeEnds (i : nat).

(** The loop of [getScheme]; [i] is the index of the first byte of
    [rest] in the whole text. *)
Fixpoint getScheme_loop (i : nat) (rest : string) : scheme_scan :=
  match rest with
  | EmptyString => NoScheme
  | String c rest' =>
      if is_alpha c then getScheme_loop (S i) rest'
      else if is_digit c || mem_byte c "+-." then
        if (i =? 0)%nat then NoScheme else getScheme_loop (S i) rest'
      else if (c =? ":")%char then
        if (i =? 0)%nat then LeadingColon else SchemeEnds i
      else NoScheme
  end.

(** [getScheme(rawURL)]: [(scheme, path)] or an error. *)
Definition getScheme (rawURL : string) : (string * string) + parse_error :=
  match getScheme_loop 0 rawURL with
  | NoScheme => inl ("", rawURL)
  | LeadingColon => inr ErrMissingScheme
  | SchemeEnds i => inl (slice_to rawURL i, slice_from rawURL (i + 1))
  end.

(** [stringContainsCTLByte(s)] *)
Fixpoint stringContainsCTLByte (s : string) : bool :=
  match s with
  | EmptyString => false
  | String b s' =>
      if (b <? " ")%char || (b =? "127")%char then true
      else stringContainsCTLByte s'
  end.

(** [validUserinfo(s)]. The library ranges over runes; every rune it
    accepts is a single ASCII byte, so the test is the same on bytes. *)
Fixpoint validUserinfo (s : string) : bool :=
  match s with
  | EmptyString => true
  | String r s' =>
      if is_alpha r || is_digit r || mem_byte r "-._:~!$&'()*+,;=%@"
      then validUserinfo s'
      else false
  end.

(** [parseHost(host)]. A host with a bracket is an IP literal: the text
    between the last ["["] and the last ["]"] must be an IPv6 address. *)
Definition parseHost (host : string) : string + parse_error :=
  match LastIndexByte host "[" with
  | Some openBracketIdx =>
      match LastIndexByte host "]" with
      | None => inr ErrMissingBracket
      | Some closeBracketIdx =>
          let colonPort := slice_from host (closeBracketIdx + 1) in
          if negb (validOptionalPort colonPort) then inr (ErrInvalidPort colonPort)
          else
            match unescape colonPort encodeHost with
            | inr e => inr e
            | inl unescapedColonPort =>
                let hostname := slice host (openBracketIdx + 1) closeBracketIdx in
                let checked (unescapedHostname : string) :=
                  match netip.ParseAddr unescapedHostname with
                  | None => inr ErrInvalidHost
                  | Some netip.IPv4 => inr ErrInvalidIPLiteral
                  | Some netip.IPv6 =>
                      inl ("[" ++ unescapedHostname ++ "]" ++ unescapedColonPort)
                  end in
                match Index hostname "%25" with
                | Some zoneIdx =>
                    match unescape (slice_to hostname zoneIdx) encodeHost with
                    | inr e => inr e
                    | inl hostPart =>
                        match unescape (slice_from hostname zoneIdx) encodeZone with
                        | inr e => inr e
                        | inl zonePart => checked (hostPart ++ zonePart)
                        end
                    end
                | None =>
                    match unescape hostname encodeHost with
                    | inr e => inr e
                    | inl unescapedHostname => checked unescapedHostname
                    end
                end
            end
      end
  | None =>
      match LastIndexByte host ":" with
      | Some i =>
          let colonPort := slice_from host i in
          if negb (validOptionalPort colonPort) then inr (ErrInvalidPort colonPort)
          else unescape host encodeHost
      | None => unescape host encodeHost
      end
  end.

(** [parseAuthority(authority)]: [(user, host)] or an error. *)
Definition parseAuthority (authority : string)
    : (option Userinfo * string) + parse_error :=
  let i := LastIndexByte authority "@" in
  match parseHost (match i with
                   | None => authority
                   | Some i => slice_from authority (i + 1)
                   end) with
  | inr e => inr e
  | inl host =>
      match i with
      | None => inl (None, host)
      | Some i =>
          let userinfo := slice_to authority i in
          if negb (validUserinfo userinfo) then inr ErrInvalidUserinfo
          else if negb (Contains userinfo ":") then
            match unescape userinfo encodeUserPassword with
            | inr e => inr e
            | inl name => inl (Some (mkUserinfo name "" false), host)
            end
          else
            let '(name, pass, _) := Cut userinfo ":" in
            match unescape name encodeUserPassword with
            | inr e => inr e
            | inl name =>
                match unescape pass encodeUserPassword with
                | inr e => inr e
                | inl pass => inl (Some (mkUserinfo name pass true), host)
                end
            end
      end
  end.

(** [func (u *URL) setPath(p string) error], returning the new [Path]
    and [RawPath]. *)
Definition setPath (p : string) : (string * string) + parse_error :=
  match unescape p encodePath with
  | inr e => inr e
  | inl path =>
      if p =? escape path encodePath then inl (path, "") else inl (path, p)
  end.

(** [func (u *URL) setFragment(f string) error], returning the new
    [Fragment] and [RawFragment]. *)
Definition setFragment (f : string) : (string * string) + parse_error :=
  match unescape f encodeFragment with
  | inr e => inr e
  | inl frag =>
      if f =? escape frag encodeFragment then inl (frag, "") else inl (frag, f)
  end.

(** [parse(rawURL, viaRequest)] *)
Definition parse (rawURL : string) (viaRequest : bool) : URL + parse_error :=
  if stringContainsCTLByte rawURL then inr ErrControlCharacter
  else if (rawURL =? "") && viaRequest then inr ErrEmptyURL
  else if rawURL =? "*" then inl (mkURL "" "" None "" "*" "" false false "" "" "")
  else
    match getScheme rawURL with
    | inr e => inr e
    | inl (scheme, rest) =>
        let scheme := ToLower scheme in
        let '(forceQuery, rest, rawQuery) :=
          if HasSuffix rest "?" && (CountByte rest "?" =? 1)%nat
          then (true, slice_to rest (String.length rest - 1), "")
          else let '(before, after, _) := Cut rest "?" in (false, before, after) in
        if negb (HasPrefix rest "/") && negb (scheme =? "") then
          (* a rootless path is kept as opaque data *)
          inl (mkURL scheme rest None "" "" "" false forceQuery rawQuery "" "")
        else if negb (HasPrefix rest "/") && viaRequest then
          inr ErrInvalidURIForRequest
        else if negb (HasPrefix rest "/")
                && Contains (fst (fst (Cut rest "/"))) ":" then
          inr ErrColonInFirstSegment
        else
          let finish (user : option Userinfo) (host : string)
                     (omitHost : bool) (rest : string) :=
            match setPath rest with
            | inr e => inr e
            | inl (path, rawPath) =>
                inl (mkURL scheme "" user host path rawPath omitHost
                           forceQuery rawQuery "" "")
            end in
          if (negb (scheme =? "")
              || (negb viaRequest && negb (HasPrefix rest "///")))
             && HasPrefix rest "//" then
            let authority := slice_from rest 2 in
            let '(authority, rest) :=
              match Index authority "/" with
              | Some i => (slice_to authority i, slice_from authority i)
              | None => (authority, "")
              end in
            match parseAuthority authority with
            | inr e => inr e
            | inl (user, host) => finish user host false rest
            end
          else if negb (scheme =? "") && HasPrefix rest "/" then
            finish None "" true rest
          else finish None "" false rest
    end.

(** [url.Parse(rawURL)], which returns a [*URL] and an [error]. On
    success the returned pointer is never nil. *)
Definition Parse (rawURL : string) : URL + Error :=
  let '(u, frag, _) := Cut rawURL "#" in
  match parse u false with
  | inr err => inr (mkError "parse" u err)
  | inl url =>
      if frag =? "" then inl url
      else
        match setFragment frag with
        | inr err => inr (mkError "parse" rawURL err)
        | inl (fragment, rawFragment) =>
            inl (mkURL (Scheme url) (Opaque url) (User url) (Host url)
                       (Path url) (RawPath url) (OmitHost url)
                       (ForceQuery url) (RawQuery url) fragment rawFragment)
        end
  end.

(** *** Rendering: [URL.String] *)

(** The string produced by [u.String()]. No property below depends on the
    text itself, so it is kept symbolic: [TextOf u] denotes the rendering
    of [u]. *)
Inductive text : Type :=
| TextOf (u : URL).

(** [func (u *URL) String() string], called through a pointer. The method
    reads [u.Scheme] first, so a nil receiver panics. *)
Definition URL_String (id : option URL) : result text :=
  match id with
  | Some u => Return (TextOf u)
  | None => Panic nil_dereference
  end.

End net_url.

(* ===================================================================== *)
(** ** Package [idutil]: [pkg/common/idutil/spiffeid.go] *)
(* ===================================================================== *)

Module idutil.
Import go strings net_url.

(** [type idType int] with its [iota] constants. *)
Definition idType : Type := Z.
Definition anyId : idType := 0%Z.
Definition trustDomainId : idType := 1%Z.
Definition workloadId : idType := 2%Z.
Definition agentId : idType := 3%Z.
Definition serverId : idType := 4%Z.

(** [type validationOptions struct] *)
Record validationOptions : Type := mkOptions {
  trustDomain : string;
  trustDomainRequired : bool;
  opt_idType : idType
}.

(** [type validationMode struct { options validationOptions }], the only
    implementation of the interface [ValidationMode]. A [ValidationMode]
    below is a non-nil interface value; calls that may pass the nil
    interface are [ValidateSpiffeIDURL_nilable] and its callers. *)
Record validationMode : Type := mkMode {
  options : validationOptions
}.
Definition ValidationMode : Type := validationMode.

(** [func (m validationMode) validationOptions() validationOptions] *)
Definition get_validationOptions (m : ValidationMode) : validationOptions :=
  options m.

(** An argument handed to [fmt.Errorf]. *)
Inductive arg : Type :=
| AString (s : string)          (* a Go string *)
| AText (t : text)              (* the string returned by [id.String()] *)
| AURL (u : URL)                (* a non-nil [*url.URL], printed by [fmt] *)
| AIdType (t : idType)
| AError (e : Error).

(** A Go [error] value, recorded by the call that builds it: the format
    string and the arguments of [fmt.Errorf], or the text of
    [errors.New]. Rendering the message text is left to [fmt]. *)
Inductive error : Type :=
| fmt_Errorf (format : string) (args : list arg)
| errors_New (text : string).

(** The closure [validationError] of [ValidateSpiffeIDURL]. It evaluates
    [id.String()] before it calls [fmt.Errorf]. *)
Definition validationError (id : option URL) (options : validationOptions)
    (format : string) (args : list arg) : result error :=
  let kind :=
    if (opt_idType options =? trustDomainId)%Z then "trust domain "
    else if (opt_idType options =? workloadId)%Z then "workload "
    else if (opt_idType options =? serverId)%Z then "server "
    else if (opt_idType options =? agentId)%Z then "agent "
    else "" in
  idString <- URL_String id ;;
  Return (fmt_Errorf ("%q is not a valid %sSPIFFE ID: " ++ format)
                     (AText idString :: AString kind :: args)).

(** [isReservedPath(path)] *)
Definition isReservedPath (path : string) : bool :=
  (path =? "/spire") || HasPrefix path "/spire/".

(** [isServerPath(path)] *)
Definition isServerPath (path : string) : bool := path =? "/spire/server".

(** [isAgentPath(path)] *)
Definition isAgentPath (path : string) : bool := HasPrefix path "/spire/agent/".

(** [ValidateSpiffeIDURL(id, mode)]: [Return None] is a nil error. *)
Definition ValidateSpiffeIDURL (id : option URL) (mode : ValidationMode)
    : result (option error) :=
  let options := get_validationOptions mode in
  let validationError format args :=
    e <- validationError id options format args ;; Return (Some e) in
  match id with
  | None => validationError "SPIFFE ID is empty" []
  | Some u =>
      if is_zero u then validationError "SPIFFE ID is empty" []
      (* General validation *)
      else if negb (Scheme u =? "spiffe") then validationError "invalid scheme" []
      else if match User u with Some _ => true | None => false end
      then validationError "user info is not allowed" []
      else if Host u =? "" then validationError "trust domain is empty" []
      else if negb (Port u =? "") then validationError "port is not allowed" []
      else if negb (Fragment u =? "") then validationError "fragment is not allowed" []
      else if negb (RawQuery u =? "") then validationError "query is not allowed" []
      (* trust domain validation *)
      else if trustDomainRequired options && (trustDomain options =? "")
      then Return (Some (errors_New "trust domain to validate against cannot be empty"))
      else if trustDomainRequired options && negb (Host u =? trustDomain options)
      then Return (Some (fmt_Errorf "%q does not belong to trust domain %q"
                                    [AURL u; AString (trustDomain options)]))
      (* id type validation *)
      else if (opt_idType options =? anyId)%Z then Return None
      else if (opt_idType options =? trustDomainId)%Z then
        if negb (Path u =? "") then validationError "path is not empty" []
        else Return None
      else if (opt_idType options =? workloadId)%Z then
        if Path u =? "" then validationError "path is empty" []
        else if isReservedPath (Path u)
        then validationError
               ("invalid path: " ++ quoted "/spire/*" ++ " namespace is reserved") []
        else Return None
      else if (opt_idType options =? serverId)%Z then
        if Path u =? "" then validationError "path is empty" []
        else if negb (isServerPath (Path u))
        then validationError ("invalid path: expecting " ++ quoted "/spire/server") []
        else Return None
      else if (opt_idType options =? agentId)%Z then
        if Path u =? "" then validationError "path is empty" []
        else if negb (isAgentPath (Path u))
        then validationError ("invalid path: expecting " ++ quoted "/spire/agent/*") []
        else Return None
      else validationError "internal error: unhandled id type %v"
                           [AIdType (opt_idType options)]
  end.

(** [ParseSpiffeID(spiffeID, mode)]: the returned pair is [(u, err)]. *)
Definition ParseSpiffeID (spiffeID : string) (mode : ValidationMode)
    : result (option URL * option error) :=
  match Parse spiffeID with
  | inr err =>
      Return (None, Some (fmt_Errorf "could not parse SPIFFE ID: %v" [AError err]))
  | inl u =>
      err <- ValidateSpiffeIDURL (Some u) mode ;;
      match err with
      | Some e => Return (None, Some e)
      | None => Return (Some u, None)
      end
  end.

(** [ValidateSpiffeID(spiffeID, mode)] *)
Definition ValidateSpiffeID (spiffeID : string) (mode : ValidationMode)
    : result (option error) :=
  r <- ParseSpiffeID spiffeID mode ;; Return (snd r).

(** *** Calls with an interface value that may be nil

    An argument of interface type [ValidationMode] is the nil interface
    ([None]) or a [validationMode]. The first statement of
    [ValidateSpiffeIDURL] is [mode.validationOptions()], a method call that
    panics on the nil interface, before the identity is looked at. *)
Definition ValidateSpiffeIDURL_nilable (id : option URL)
    (mode : option ValidationMode) : result (option error) :=
  match mode with
  | None => Panic nil_dereference
  | Some m => ValidateSpiffeIDURL id m
  end.

(** [ParseSpiffeID(spiffeID, mode)] with a mode that may be nil: the mode
    is only used once [url.Parse] has succeeded. *)
Definition ParseSpiffeID_nilable (spiffeID : string)
    (mode : option ValidationMode) : result (option URL * option error) :=
  match Parse spiffeID with
  | inr err =>
      Return (None, Some (fmt_Errorf "could not parse SPIFFE ID: %v" [AError err]))
  | inl u =>
      err <- ValidateSpiffeIDURL_nilable (Some u) mode ;;
      match err with
      | Some e => Return (None, Some e)
      | None => Return (Some u, None)
      end
  end.

(** [ValidateSpiffeID(spiffeID, mode)] with a mode that may be nil. *)
Definition ValidateSpiffeID_nilable (spiffeID : string)
    (mode : option ValidationMode) : result (option error) :=
  r <- ParseSpiffeID_nilable spiffeID mode ;; Return (snd r).

(** The zero value of [validationOptions]. *)
Definition no_options : validationOptions := mkOptions "" false anyId.

Definition AllowAny : ValidationMode := mkMode no_options.

Definition AllowAnyInTrustDomain (trustDomain : string) : ValidationMode :=
  mkMode (mkOptions trustDomain true anyId).

Definition AllowTrustDomain (trustDomain : string) : ValidationMode :=
  mkMode (mkOptions trustDomain true trustDomainId).

Definition AllowTrustDomainWorkload (trustDomain : string) : ValidationMode :=
  mkMode (mkOptions trustDomain true workloadId).

Definition AllowTrustDomainServer (trustDomain : string) : ValidationMode :=
  mkMode (mkOptions trustDomain true serverId).

Definition AllowTrustDomainAgent (trustDomain : string) : ValidationMode :=
  mkMode (mkOptions trustDomain true agentId).

Definition AllowAnyTrustDomain : ValidationMode :=
  mkMode (mkOptions "" false trustDomainId).

Definition AllowAnyTrustDomainWorkload : ValidationMode :=
  mkMode (mkOptions "" false workloadId).

Definition AllowAnyTrustDomainServer : ValidationMode :=
  mkMode (mkOptions "" false serverId).

Definition AllowAnyTrustDomainAgent : ValidationMode :=
  mkMode (mkOptions "" false agentId).

End idutil.

(* ===================================================================== *)
(** ** Package [disk]: the upstream CA plugin
     ([pkg/server/plugin/upstreamca/disk])

  The plugin's source is not among the sources covered here (its test
  file is); the plugin is modelled from the specification (sections 3, 4.3
  and 4.4). The X.509 primitives are parameters of the model. *)
(* ===================================================================== *)

Module disk.

Section SigningPipeline.

(** Distinguished names, decoded signing requests, private keys and
    certificates of the X.509 library. *)
Variables (Name CertificateRequest PrivateKey Certificate : Type).

(** Decoding a DER-encoded CSR; [None] when the encoding is malformed. *)
Variable ParseCertificateRequest : list Byte.byte -> option CertificateRequest.

(** The CSR's self-signature verifies against its embedded public key. *)
Variable CheckSignature : CertificateRequest -> bool.

Variable csr_subject : CertificateRequest -> Name.
Variable cert_subject : Certificate -> Name.

(** Modelled from the spec: the fields of the leaf certificate derived
    in step 3 of section 4.4 (the plugin source is absent). *)
Record template : Type := mkTemplate {
  subject : Name;
  serialNumber : N;
  notBefore : Z;
  notAfter : Z;
  issuer : Name
}.

(** Signing a leaf certificate for a CSR with the CA certificate and
    key; the DER bytes of the certificate, or [None] when the key
    material is unusable. *)
Variable CreateCertificate :
  template -> CertificateRequest -> Certificate -> PrivateKey -> option (list Byte.byte).

(** Modelled from the spec: [CaConfiguration] of section 3 (the plugin
    source is absent); the TTL is kept in seconds. *)
Record Configuration : Type := mkConfiguration {
  TrustDomain : string;
  TTL : Z;
  KeyFilePath : string;
  CertFilePath : string
}.

(** Modelled from the spec: [CaKeyMaterial] of section 3 (the plugin
    source is absent). *)
Record CaKeyMaterial : Type := mkMaterial {
  key : PrivateKey;
  cert : Certificate;
  config : Configuration
}.

(** Modelled from the spec: the failure taxonomy of section 4.4 (the
    plugin source is absent). *)
Inductive SigningError : Type :=
| NotConfigured
| DecodeError
| SignatureError
| SignError.

(** Modelled from the spec: [SubmitCSR] of section 4.4 (the plugin
    source is absent). [active] is the key material installed by the
    last successful [Configure], [now] the request time and [serial] the
    fresh serial number. The result is the Go pair [(resp, err)]: a nil
    response is [None], a nil error is [None]. *)
Definition SubmitCSR (active : option CaKeyMaterial) (now : Z) (serial : N)
    (csrBytes : list Byte.byte)
    : option (list Byte.byte) * option SigningError :=
  match active with
  | None => (None, Some NotConfigured)
  | Some ca =>
      (* 1. decode *)
      match ParseCertificateRequest csrBytes with
      | None => (None, Some DecodeError)
      | Some csr =>
          (* 2. verify the self-signature *)
          if negb (CheckSignature csr) then (None, Some SignatureError)
          else
            (* 3. derive the leaf certificate *)
            let leaf :=
              mkTemplate (csr_subject csr) serial now (now + TTL (config ca))
                         (cert_subject (cert ca)) in
            (* 4. sign with the CA key, 5. return the bytes *)
            match CreateCertificate leaf csr (cert ca) (key ca) with
            | None => (None, Some SignError)
            | Some der => (Some der, None)
            end
      end
  end.

(** A CSR is acceptable when it decodes and its self-signature
    verifies; otherwise it is malformed or tampered. *)
Definition acceptable (csrBytes : list Byte.byte) : bool :=
  match ParseCertificateRequest csrBytes with
  | Some csr => CheckSignature csr
  | None => false
  end.

End SigningPipeline.

Arguments mkTemplate {Name} subject serialNumber notBefore notAfter issuer.
Arguments mkMaterial {PrivateKey Certificate} key cert config.
Arguments key {PrivateKey Certificate} c.
Arguments cert {PrivateKey Certificate} c.
Arguments config {PrivateKey Certificate} c.
Arguments SubmitCSR {Name CertificateRequest PrivateKey Certificate}
  ParseCertificateRequest CheckSignature csr_subject cert_subject
  CreateCertificate active now serial csrBytes.
Arguments acceptable {CertificateRequest} ParseCertificateRequest
  CheckSignature csrBytes.

End disk.

(* ===================================================================== *)
(** ** Vocabulary of the specification *)
(* ===================================================================== *)

Module spec.
Import go strings net_url idutil.

(** Validation succeeds: the call returns a nil error. *)
Definition succeeds (r : result (option error)) : Prop := r = Return None.

(** Validation fails: the call returns a non-nil error. *)
Definition fails (r : result (option error)) : Prop :=
  exists e, r = Return (Some e).

(** The structural rules of section 4.1 on a parsed identity: scheme
    [spiffe], no user-info, a non-empty host, no port, no fragment, no
    query. (Such a URL is not the zero value.) *)
Definition well_formed (u : URL) : Prop :=
  Scheme u = "spiffe" /\ User u = None /\ Host u <> "" /\ Port u = ""
  /\ Fragment u = "" /\ RawQuery u = "".

(** The class selectors the package defines. *)
Definition known_class (t : idType) : Prop :=
  t = anyId \/ t = trustDomainId \/ t = workloadId \/ t = agentId \/ t = serverId.

(** The configuration error of the trust-domain check. *)
Definition configuration_error : error :=
  errors_New "trust domain to validate against cannot be empty".

(** The domain-mismatch error for identity [u] and required domain [D]. *)
Definition mismatch_error (u : URL) (D : string) : error :=
  fmt_Errorf "%q does not belong to trust domain %q" [AURL u; AString D].

(** An internal error: the report of an unhandled class selector. *)
Definition internal_error (e : error) : Prop :=
  exists args,
    e = fmt_Errorf
          "%q is not a valid %sSPIFFE ID: internal error: unhandled id type %v"
          args.

(** *** The ordered checks of section 4.2

    A check inspects the identity under the options and either passes
    ([None]) or yields the error to return. The checks follow the
    wording of the specification; they are compared with the code
    below. *)
Definition check : Type := option URL -> validationOptions -> option (result error).

Definition on_url (f : URL -> validationOptions -> option (result error)) : check :=
  fun id o => match id with Some u => f u o | None => None end.

Definition reject (id : option URL) (o : validationOptions) (detail : string)
    : option (result error) :=
  Some (validationError id o detail []).

Definition check_not_empty : check := fun id o =>
  match id with
  | None => reject id o "SPIFFE ID is empty"
  | Some u => if is_zero u then reject id o "SPIFFE ID is empty" else None
  end.

Definition check_scheme : check := on_url (fun u o =>
  if Scheme u =? "spiffe" then None else reject (Some u) o "invalid scheme").

Definition check_no_user_info : check := on_url (fun u o =>
  match User u with
  | None => None
  | Some _ => reject (Some u) o "user info is not allowed"
  end).

Definition check_host : check := on_url (fun u o =>
  if Host u =? "" then reject (Some u) o "trust domain is empty" else None).

Definition check_no_port : check := on_url (fun u o =>
  if Port u =? "" then None else reject (Some u) o "port is not allowed").

Definition check_no_fragment : check := on_url (fun u o =>
  if Fragment u =? "" then None else reject (Some u) o "fragment is not allowed").

Definition check_no_query : check := on_url (fun u o =>
  if RawQuery u =? "" then None else reject (Some u) o "query is not allowed").

Definition check_trust_domain : check := on_url (fun u o =>
  if negb (trustDomainRequired o) then None
  else if trustDomain o =? "" then Some (Return configuration_error)
  else if Host u =? trustDomain o then None
  else Some (Return (mismatch_error u (trustDomain o)))).

Definition check_class : check := on_url (fun u o =>
  let t := opt_idType o in
  if (t =? anyId)%Z then None
  else if (t =? trustDomainId)%Z then
    if Path u =? "" then None else reject (Some u) o "path is not empty"
  else if (t =? workloadId)%Z then
    if Path u =? "" then reject (Some u) o "path is empty"
    else if (Path u =? "/spire") || HasPrefix (Path u) "/spire/"
    then reject (Some u) o
           ("invalid path: " ++ quoted "/spire/*" ++ " namespace is reserved")
    else None
  else if (t =? serverId)%Z then
    if Path u =? "" then reject (Some u) o "path is empty"
    else if Path u =? "/spire/server" then None
    else reject (Some u) o ("invalid path: expecting " ++ quoted "/spire/server")
  else if (t =? agentId)%Z then
    if Path u =? "" then reject (Some u) o "path is empty"
    else if HasPrefix (Path u) "/spire/agent/" then None
    else reject (Some u) o ("invalid path: expecting " ++ quoted "/spire/agent/*")
  else Some (validationError (Some u) o "internal error: unhandled id type %v"
                             [AIdType t])).

(** The checks in the order the specification lists them. *)
Definition checks_in_order : list check :=
  [ check_not_empty;
    check_scheme; check_no_user_info; check_host; check_no_port;
    check_no_fragment; check_no_query;
    check_trust_domain;
    check_class ].

(** Run the checks from left to right and stop at the first that does
    not pass. *)
Fixpoint first_failure (cs : list check) (id : option URL)
    (o : validationOptions) : result (option error) :=
  match cs with
  | [] => Return None
  | c :: cs' =>
      match c id o with
      | Some r => e <- r ;; Return (Some e)
      | None => first_failure cs' id o
      end
  end.

(** The three kinds of error [ValidateSpiffeIDURL] returns for identity
    [u]: the configuration error, the domain mismatch, or a validation
    error that names [u]. *)
Definition error_about (u : URL) (o : validationOptions) (e : error) : Prop :=
  e = errors_New "trust domain to validate against cannot be empty"
  \/ e = fmt_Errorf "%q does not belong to trust domain %q"
                    [AURL u; AString (trustDomain o)]
  \/ exists kind detail args,
       e = fmt_Errorf ("%q is not a valid %sSPIFFE ID: " ++ detail)
                      (AText (TextOf u) :: AString kind :: args).

End spec.

(* ===================================================================== *)
(** ** Properties of [idutil] *)
(* ===================================================================== *)

Import go strings net_url idutil spec.

Section Validation.

Implicit Types (u : URL) (mode : ValidationMode) (o : validationOptions).

(** Case analysis on a condition of the code; the branches in which both
    sides already agree are closed. *)
Ltac case_bool b :=
  match goal with
  | |- context [b] => destruct b; cbn [negb andb]; try reflexivity
  | _ => idtac
  end.

(** The code of [ValidateSpiffeIDURL] runs the specification's checks in
    the specification's order. *)
Lemma ValidateSpiffeIDURL_first_failure (id : option URL) mode :
  ValidateSpiffeIDURL id mode = first_failure checks_in_order id (options mode).
Proof.
  destruct id as [u|]; [|reflexivity].
  unfold ValidateSpiffeIDURL, get_validationOptions, checks_in_order.
  cbn [first_failure].
  unfold check_not_empty, check_scheme, check_no_user_info, check_host,
    check_no_port, check_no_fragment, check_no_query, check_trust_domain,
    check_class, on_url, reject, isReservedPath, isServerPath, isAgentPath.
  case_bool (is_zero u).
  case_bool (Scheme u =? "spiffe").
  destruct (User u); [reflexivity|].
  case_bool (Host u =? "").
  case_bool (Port u =? "").
  case_bool (Fragment u =? "").
  case_bool (RawQuery u =? "").
  destruct (trustDomainRequired (options mode)); cbn [negb andb].
  all: case_bool (trustDomain (options mode) =? "").
  all: case_bool (Host u =? trustDomain (options mode)).
  all: case_bool (opt_idType (options mode) =? anyId)%Z.
  all: case_bool (opt_idType (options mode) =? trustDomainId)%Z.
  all: case_bool (opt_idType (options mode) =? workloadId)%Z.
  all: case_bool (opt_idType (options mode) =? serverId)%Z.
  all: case_bool (opt_idType (options mode) =? agentId)%Z.
  all: case_bool (Path u =? "").
  all: case_bool ((Path u =? "/spire") || HasPrefix (Path u) "/spire/").
  all: case_bool (Path u =? "/spire/server").
  all: case_bool (HasPrefix (Path u) "/spire/agent/").
Qed.

(** *** Running a list of checks *)

Lemma bind_never_nil (r : result error) :
  (e <- r ;; Return (Some e)) <> Return (@None error).
Proof. destruct r; discriminate. Qed.

Lemma first_failure_pass (c : check) cs id o :
  c id o = None -> first_failure (c :: cs) id o = first_failure cs id o.
Proof. intros H. cbn [first_failure]. rewrite H. reflexivity. Qed.

Lemma first_failure_fail (c : check) cs id o r :
  c id o = Some r -> first_failure (c :: cs) id o = (e <- r ;; Return (Some e)).
Proof. intros H. cbn [first_failure]. rewrite H. reflexivity. Qed.

(** The first check that does not pass decides the result, whatever the
    later checks would say. *)
Lemma first_failure_split cs1 (c : check) cs2 id o r :
  Forall (fun c' : check => c' id o = None) cs1 ->
  c id o = Some r ->
  first_failure (cs1 ++ c :: cs2) id o = (e <- r ;; Return (Some e)).
Proof.
  induction 1 as [|c' cs1 Hc' _ IH]; intros Hc; cbn [app].
  - now apply first_failure_fail.
  - rewrite first_failure_pass by assumption. now apply IH.
Qed.

Lemma first_failure_succeeds cs id o :
  first_failure cs id o = Return None <->
  Forall (fun c : check => c id o = None) cs.
Proof.
  induction cs as [|c cs IH]; cbn [first_failure].
  - split; [constructor | reflexivity].
  - destruct (c id o) as [r|] eqn:Hc.
    + split; intros H.
      * now apply bind_never_nil in H.
      * inversion H; subst. congruence.
    + rewrite IH. split; intros H.
      * now constructor.
      * now inversion H.
Qed.

(** *** When each check passes *)

Lemma well_formed_not_zero u : well_formed u -> is_zero u = false.
Proof. intros (Hs & _). unfold is_zero. rewrite Hs. reflexivity. Qed.

Lemma structural_checks_pass u o :
  Forall (fun c : check => c (Some u) o = None)
         [check_not_empty; check_scheme; check_no_user_info; check_host;
          check_no_port; check_no_fragment; check_no_query]
  <-> well_formed u.
Proof.
  unfold well_formed. split.
  - intros H.
    repeat match goal with
           | H : Forall _ (_ :: _) |- _ => inversion H; subst; clear H
           end.
    unfold check_not_empty, check_scheme, check_no_user_info, check_host,
      check_no_port, check_no_fragment, check_no_query, on_url, reject in *.
    repeat match goal with
           | H : (if ?b then _ else _) = None |- _ =>
               destruct b eqn:?; [try discriminate H | try discriminate H]
           | H : match ?x with Some _ => _ | None => _ end = None |- _ =>
               destruct x eqn:?; [discriminate H|]
           end.
    rewrite ?String.eqb_eq, ?String.eqb_neq in *. tauto.
  - intros (Hs & Hu & Hh & Hp & Hf & Hq).
    apply String.eqb_neq in Hh.
    repeat constructor;
      unfold check_not_empty, check_scheme, check_no_user_info, check_host,
        check_no_port, check_no_fragment, check_no_query, on_url, reject.
    + rewrite well_formed_not_zero; [reflexivity|].
      apply String.eqb_neq in Hh. unfold well_formed. tauto.
    + rewrite Hs. reflexivity.
    + rewrite Hu. reflexivity.
    + rewrite Hh. reflexivity.
    + rewrite Hp. reflexivity.
    + rewrite Hf. reflexivity.
    + rewrite Hq. reflexivity.
Qed.

Lemma check_trust_domain_pass u o :
  check_trust_domain (Some u) o = None <->
  (trustDomainRequired o = true -> trustDomain o <> "" /\ Host u = trustDomain o).
Proof.
  unfold check_trust_domain, on_url.
  destruct (trustDomainRequired o); cbn [negb].
  - destruct (trustDomain o =? "") eqn:Htd.
    + apply String.eqb_eq in Htd. split; [discriminate|].
      intros H. destruct (H eq_refl) as [Hne _]. contradiction.
    + apply String.eqb_neq in Htd.
      destruct (Host u =? trustDomain o) eqn:Hh.
      * apply String.eqb_eq in Hh. tauto.
      * apply String.eqb_neq in Hh. split; [discriminate|].
        intros H. destruct (H eq_refl) as [_ He]. contradiction.
  - split; [discriminate | reflexivity].
Qed.

(** A well-formed identity is judged by the trust-domain check and then
    the class check. *)
Lemma ValidateSpiffeIDURL_well_formed u mode :
  well_formed u ->
  ValidateSpiffeIDURL (Some u) mode =
  first_failure [check_trust_domain; check_class] (Some u) (options mode).
Proof.
  intros Hwf. rewrite ValidateSpiffeIDURL_first_failure.
  apply (structural_checks_pass u (options mode)) in Hwf.
  unfold checks_in_order.
  repeat match goal with
         | H : Forall _ (_ :: _) |- _ => inversion H; subst; clear H
         end.
  now repeat (rewrite first_failure_pass by assumption).
Qed.

(** Validation of a non-nil identity succeeds exactly when it is
    well-formed and passes the trust-domain and class checks. *)
Lemma ValidateSpiffeIDURL_succeeds u mode :
  succeeds (ValidateSpiffeIDURL (Some u) mode) <->
  well_formed u
  /\ check_trust_domain (Some u) (options mode) = None
  /\ check_class (Some u) (options mode) = None.
Proof.
  unfold succeeds. rewrite ValidateSpiffeIDURL_first_failure.
  rewrite first_failure_succeeds. unfold checks_in_order.
  rewrite <- structural_checks_pass with (o := options mode).
  split.
  - intros H.
    repeat match goal with
           | H : Forall _ (_ :: _) |- _ => inversion H; subst; clear H
           end.
    repeat split; try assumption. repeat (constructor; try assumption).
  - intros (H & Htd & Hc).
    repeat match goal with
           | H : Forall _ (_ :: _) |- _ => inversion H; subst; clear H
           end.
    repeat (constructor; try assumption).
Qed.

End Validation.

Section Claims.

Implicit Types (u : URL) (mode : ValidationMode) (o : validationOptions).

Lemma ValidateSpiffeID_Parse (spiffeID : string) mode :
  ValidateSpiffeID spiffeID mode =
  match Parse spiffeID with
  | inl u => ValidateSpiffeIDURL (Some u) mode
  | inr err => Return (Some (fmt_Errorf "could not parse SPIFFE ID: %v" [AError err]))
  end.
Proof.
  unfold ValidateSpiffeID, ParseSpiffeID.
  destruct (Parse spiffeID) as [u|err]; [|reflexivity].
  destruct (ValidateSpiffeIDURL (Some u) mode) as [[e|]|msg]; reflexivity.
Qed.

Lemma check_class_workload u o :
  opt_idType o = workloadId ->
  check_class (Some u) o = None <->
  Path u <> "" /\ Path u <> "/spire" /\ HasPrefix (Path u) "/spire/" = false.
Proof.
  intros Ht. unfold check_class, on_url, reject. rewrite Ht. cbn [Z.eqb workloadId anyId trustDomainId Pos.eqb].
  destruct (Path u =? "") eqn:Hp.
  - apply String.eqb_eq in Hp. split; [discriminate|]. tauto.
  - apply String.eqb_neq in Hp.
    destruct (Path u =? "/spire") eqn:Hs; cbn [orb].
    + apply String.eqb_eq in Hs. split; [discriminate|]. tauto.
    + apply String.eqb_neq in Hs.
      destruct (HasPrefix (Path u) "/spire/"); split; try discriminate; try tauto.
      intros (_ & _ & H). discriminate H.
Qed.

(** C1 (as amended). Under the workload-in-domain mode for trust domain
    [D], validation succeeds if and only if the identity is structurally
    well-formed, its trust domain equals [D], its path is non-empty, and
    its path is neither ["/spire"] nor starts with ["/spire/"]. This holds
    for a parsed identity and for an identity string. *)
Theorem C1_workload_in_domain (D : string) :
  (forall u,
      succeeds (ValidateSpiffeIDURL (Some u) (AllowTrustDomainWorkload D)) <->
      well_formed u /\ Host u = D /\ Path u <> ""
      /\ Path u <> "/spire" /\ HasPrefix (Path u) "/spire/" = false)
  /\
  (forall id : string,
      succeeds (ValidateSpiffeID id (AllowTrustDomainWorkload D)) <->
      exists u, Parse id = inl u
                /\ well_formed u /\ Host u = D /\ Path u <> ""
                /\ Path u <> "/spire" /\ HasPrefix (Path u) "/spire/" = false).
Proof.
  assert (Hurl : forall u,
      succeeds (ValidateSpiffeIDURL (Some u) (AllowTrustDomainWorkload D)) <->
      well_formed u /\ Host u = D /\ Path u <> ""
      /\ Path u <> "/spire" /\ HasPrefix (Path u) "/spire/" = false).
  { intros u. rewrite ValidateSpiffeIDURL_succeeds.
    rewrite check_trust_domain_pass, check_class_workload by reflexivity.
    cbn [AllowTrustDomainWorkload options trustDomainRequired trustDomain].
    split.
    - intros (Hwf & Htd & Hp). destruct (Htd eq_refl) as [_ Hh]. tauto.
    - intros (Hwf & Hh & Hp). split; [exact Hwf|]. split; [|exact Hp].
      intros _. split; [|exact Hh].
      intros ->. destruct Hwf as (_ & _ & Hne & _). contradiction. }
  split; [exact Hurl|].
  intros id. rewrite ValidateSpiffeID_Parse.
  destruct (Parse id) as [u|err].
  - rewrite Hurl. split.
    + intros H. exists u. tauto.
    + intros (u' & Heq & H). inversion Heq; subst. exact H.
  - split; [discriminate|]. intros (u' & Heq & _). discriminate Heq.
Qed.

(** C1, as stated, fails: the identity ["spiffe://example.com/spirex"] is
    accepted as a workload of ["example.com"] although its path starts
    with ["/spire"]. *)
Lemma C1_counterexample :
  succeeds (ValidateSpiffeID "spiffe://example.com/spirex"
                             (AllowTrustDomainWorkload "example.com"))
  /\ ~ (exists u, Parse "spiffe://example.com/spirex" = inl u
                  /\ well_formed u /\ Host u = "example.com" /\ Path u <> ""
                  /\ HasPrefix (Path u) "/spire" = false).
Proof.
  split; [reflexivity|].
  intros (u & Hp & _ & _ & _ & Hpre).
  vm_compute in Hp. inversion Hp; subst. discriminate Hpre.
Qed.

(** C3. For every URL pointer and every validation mode,
    [ValidateSpiffeIDURL] evaluates its checks in the fixed order emptiness;
    scheme, user-info, non-empty host, port, fragment, query; trust domain;
    identity class: its result is that of running this list from left to
    right, and the first check that does not pass decides the result
    whatever the later checks would yield. *)
Theorem C3_checks_in_fixed_order (id : option URL) mode :
  checks_in_order =
    [ check_not_empty;
      check_scheme; check_no_user_info; check_host; check_no_port;
      check_no_fragment; check_no_query;
      check_trust_domain;
      check_class ]
  /\ ValidateSpiffeIDURL id mode = first_failure checks_in_order id (options mode)
  /\ (forall cs1 (c : check) cs2 r,
         checks_in_order = (cs1 ++ c :: cs2)%list ->
         Forall (fun c' : check => c' id (options mode) = None) cs1 ->
         c id (options mode) = Some r ->
         ValidateSpiffeIDURL id mode = (e <- r ;; Return (Some e))).
Proof.
  split; [reflexivity|]. split.
  - apply ValidateSpiffeIDURL_first_failure.
  - intros cs1 c cs2 r Hsplit Hpass Hfail.
    rewrite ValidateSpiffeIDURL_first_failure, Hsplit.
    now apply first_failure_split.
Qed.

(** C3 at a concrete input: an identity with a foreign scheme, a port and a
    foreign trust domain is reported for its scheme, the first check it
    does not pass. *)
Lemma C3_checks_in_fixed_order_witness :
  ValidateSpiffeIDURL
    (Some (mkURL "http" "" None "other.org:80" "/spire/x" "" false false "" "" ""))
    (AllowTrustDomainWorkload "example.com")
  = (e <- validationError
            (Some (mkURL "http" "" None "other.org:80" "/spire/x" "" false false "" "" ""))
            (options (AllowTrustDomainWorkload "example.com"))
            "invalid scheme" [] ;;
     Return (Some e)).
Proof.
  refine (proj2 (proj2 (C3_checks_in_fixed_order
            (Some (mkURL "http" "" None "other.org:80" "/spire/x" "" false false "" "" ""))
            (AllowTrustDomainWorkload "example.com")))
            [check_not_empty] check_scheme _ _ eq_refl _ eq_refl).
  repeat constructor.
Defined.

(** C10, on the code. For every validation mode, [ValidateSpiffeIDURL]
    called with a nil URL pointer panics: the emptiness check is reached,
    and building its error calls [id.String()] on the nil pointer. Called
    with the zero URL value it returns the "SPIFFE ID is empty" error. *)
Theorem C10_nil_pointer_panics mode :
  ValidateSpiffeIDURL None mode = Panic nil_dereference
  /\ exists kind,
       ValidateSpiffeIDURL (Some zero) mode =
       Return (Some (fmt_Errorf "%q is not a valid %sSPIFFE ID: SPIFFE ID is empty"
                                [AText (TextOf zero); AString kind])).
Proof.
  split; [reflexivity|].
  unfold ValidateSpiffeIDURL, validationError. cbn [is_zero zero].
  eexists. reflexivity.
Qed.

(** C4 (as amended). For every structurally well-formed identity, whatever
    its trust domain, validation under a mode that requires a trust-domain
    match and whose target trust domain is empty fails with the
    configuration error; that error carries no identity, and it is neither
    an error built by [validationError] nor a domain-mismatch error. *)
Theorem C4_empty_target_trust_domain u mode :
  well_formed u ->
  trustDomainRequired (options mode) = true ->
  trustDomain (options mode) = "" ->
  ValidateSpiffeIDURL (Some u) mode =
    Return (Some (errors_New "trust domain to validate against cannot be empty"))
  /\ (forall id o format args e,
         validationError id o format args = Return e ->
         e <> errors_New "trust domain to validate against cannot be empty")
  /\ (forall u' D,
         mismatch_error u' D <>
         errors_New "trust domain to validate against cannot be empty").
Proof.
  intros Hwf Hreq Htd. split; [|split].
  - rewrite ValidateSpiffeIDURL_well_formed by assumption.
    cbn [first_failure]. unfold check_trust_domain, on_url.
    rewrite Hreq, Htd. reflexivity.
  - intros [u'|] o format args e H; [|discriminate H].
    unfold validationError in H. cbn [URL_String bind] in H.
    inversion H. discriminate.
  - intros u' D. discriminate.
Qed.

Lemma C4_empty_target_trust_domain_witness :
  ValidateSpiffeIDURL
    (Some (mkURL "spiffe" "" None "example.org" "/workload" "" false false "" "" ""))
    (AllowAnyInTrustDomain "")
  = Return (Some (errors_New "trust domain to validate against cannot be empty")).
Proof.
  refine (proj1 (C4_empty_target_trust_domain
                   (mkURL "spiffe" "" None "example.org" "/workload" "" false false "" "" "")
                   (AllowAnyInTrustDomain "") _ eq_refl eq_refl)).
  unfold well_formed. cbn. repeat split. discriminate.
Defined.

(** C4, as stated, fails: under the any-in-domain mode with an empty target
    the malformed identity ["http://example.com/workload"] fails with the
    validation error for its scheme, which names the identity, and not
    with the configuration error. *)
Lemma C4_counterexample :
  exists u,
    Parse "http://example.com/workload" = inl u
    /\ ValidateSpiffeID "http://example.com/workload" (AllowAnyInTrustDomain "")
       = Return (Some (fmt_Errorf "%q is not a valid %sSPIFFE ID: invalid scheme"
                                  [AText (TextOf u); AString ""]))
    /\ ValidateSpiffeID "http://example.com/workload" (AllowAnyInTrustDomain "")
       <> Return (Some (errors_New "trust domain to validate against cannot be empty")).
Proof.
  eexists. split; [reflexivity|]. split; [reflexivity|]. discriminate.
Qed.

Lemma check_class_server u o :
  opt_idType o = serverId ->
  check_class (Some u) o = None <-> Path u = "/spire/server".
Proof.
  intros Ht. unfold check_class, on_url, reject. rewrite Ht.
  cbn [Z.eqb serverId anyId trustDomainId workloadId Pos.eqb].
  destruct (Path u =? "") eqn:Hp.
  - apply String.eqb_eq in Hp. rewrite Hp. split; discriminate.
  - destruct (Path u =? "/spire/server") eqn:Hs.
    + apply String.eqb_eq in Hs. tauto.
    + apply String.eqb_neq in Hs. split; [discriminate | contradiction].
Qed.

Lemma check_class_agent u o :
  opt_idType o = agentId ->
  check_class (Some u) o = None <-> HasPrefix (Path u) "/spire/agent/" = true.
Proof.
  intros Ht. unfold check_class, on_url, reject. rewrite Ht.
  cbn [Z.eqb agentId serverId anyId trustDomainId workloadId Pos.eqb].
  destruct (Path u =? "") eqn:Hp.
  - apply String.eqb_eq in Hp. rewrite Hp. split; discriminate.
  - destruct (HasPrefix (Path u) "/spire/agent/"); split; try discriminate; reflexivity.
Qed.

(** C5. Under a server-class mode whose trust-domain requirement, if any,
    matches the identity's trust domain, validation of a well-formed
    identity succeeds if and only if its path equals exactly
    ["/spire/server"]. In particular ["spiffe://example.com/spire/server"]
    validates under server-in-domain ["example.com"] and
    ["spiffe://example.com/spire/serverX"] does not. *)
Theorem C5_server_class u mode :
  well_formed u ->
  opt_idType (options mode) = serverId ->
  (trustDomainRequired (options mode) = true -> trustDomain (options mode) = Host u) ->
  (succeeds (ValidateSpiffeIDURL (Some u) mode) <-> Path u = "/spire/server")
  /\ succeeds (ValidateSpiffeID "spiffe://example.com/spire/server"
                                (AllowTrustDomainServer "example.com"))
  /\ fails (ValidateSpiffeID "spiffe://example.com/spire/serverX"
                             (AllowTrustDomainServer "example.com")).
Proof.
  intros Hwf Ht Htd. split; [|split].
  - rewrite ValidateSpiffeIDURL_succeeds, check_trust_domain_pass,
      check_class_server by assumption.
    split; [tauto|]. intros Hp. split; [assumption|]. split; [|assumption].
    intros Hreq. split.
    + rewrite (Htd Hreq). destruct Hwf as (_ & _ & Hne & _). exact Hne.
    + symmetry. now apply Htd.
  - reflexivity.
  - eexists. reflexivity.
Qed.

Lemma C5_server_class_witness :
  succeeds (ValidateSpiffeIDURL
              (Some (mkURL "spiffe" "" None "example.com" "/spire/server" ""
                           false false "" "" ""))
              (AllowTrustDomainServer "example.com"))
  <-> "/spire/server" = "/spire/server".
Proof.
  refine (proj1 (C5_server_class
                   (mkURL "spiffe" "" None "example.com" "/spire/server" ""
                          false false "" "" "")
                   (AllowTrustDomainServer "example.com") _ eq_refl (fun _ => eq_refl))).
  unfold well_formed. cbn. repeat split. discriminate.
Defined.

(** C6. Under the agent-in-domain mode with required trust domain [D],
    validation succeeds for every well-formed identity in domain [D] whose
    path starts with ["/spire/agent/"], in particular for
    ["spiffe://example.com/spire/agent/x"] under ["example.com"]; for a
    well-formed identity in a different trust domain it fails with the
    domain-mismatch error, whose arguments are the identity and the
    required domain [D]. *)
Theorem C6_agent_class u (D : string) :
  well_formed u ->
  D <> "" ->
  (Host u = D -> HasPrefix (Path u) "/spire/agent/" = true ->
   succeeds (ValidateSpiffeIDURL (Some u) (AllowTrustDomainAgent D)))
  /\ (Host u <> D ->
      ValidateSpiffeIDURL (Some u) (AllowTrustDomainAgent D) =
      Return (Some (fmt_Errorf "%q does not belong to trust domain %q"
                               [AURL u; AString D])))
  /\ succeeds (ValidateSpiffeID "spiffe://example.com/spire/agent/x"
                                (AllowTrustDomainAgent "example.com"))
  /\ (exists u',
         Parse "spiffe://example.org/spire/agent/x" = inl u'
         /\ Host u' = "example.org"
         /\ ValidateSpiffeID "spiffe://example.org/spire/agent/x"
                             (AllowTrustDomainAgent "example.com") =
            Return (Some (fmt_Errorf "%q does not belong to trust domain %q"
                                     [AURL u'; AString "example.com"]))).
Proof.
  intros Hwf HD. split; [|split; [|split]].
  - intros Hh Hp.
    rewrite ValidateSpiffeIDURL_succeeds, check_trust_domain_pass,
      check_class_agent by reflexivity.
    cbn [AllowTrustDomainAgent options trustDomainRequired trustDomain].
    split; [assumption|]. split; [|assumption].
    intros _. split; [assumption | now symmetry].
  - intros Hh.
    rewrite ValidateSpiffeIDURL_well_formed by assumption.
    cbn [first_failure AllowTrustDomainAgent options].
    unfold check_trust_domain, on_url.
    cbn [trustDomainRequired trustDomain negb].
    apply String.eqb_neq in HD, Hh. rewrite HD, Hh. reflexivity.
  - reflexivity.
  - eexists. split; [reflexivity|]. split; reflexivity.
Qed.

Lemma C6_agent_class_witness :
  ValidateSpiffeIDURL
    (Some (mkURL "spiffe" "" None "example.org" "/spire/agent/x" "" false false "" "" ""))
    (AllowTrustDomainAgent "example.com")
  = Return (Some (fmt_Errorf "%q does not belong to trust domain %q"
              [AURL (mkURL "spiffe" "" None "example.org" "/spire/agent/x" ""
                           false false "" "" "");
               AString "example.com"])).
Proof.
  refine (proj1 (proj2 (C6_agent_class
                   (mkURL "spiffe" "" None "example.org" "/spire/agent/x" ""
                          false false "" "" "")
                   "example.com" _ _)) _).
  - unfold well_formed. cbn. repeat split. discriminate.
  - discriminate.
  - cbn. discriminate.
Defined.

(** *** Internal errors *)

(** What [validationError] builds for a non-nil identity. *)
Lemma validationError_Some u o format args :
  exists kind,
    validationError (Some u) o format args =
    Return (fmt_Errorf ("%q is not a valid %sSPIFFE ID: " ++ format)
                       (AText (TextOf u) :: AString kind :: args)).
Proof. unfold validationError. cbn [URL_String bind]. eexists. reflexivity. Qed.

(** A rejection with a detail other than the internal one is not an
    internal error. *)
Lemma reject_not_internal id o detail r e :
  (detail =? "internal error: unhandled id type %v") = false ->
  reject id o detail = Some r ->
  (x <- r ;; Return (Some x)) = Return (Some e) ->
  ~ internal_error e.
Proof.
  intros Hd Hr He [args ->]. unfold reject in Hr. inversion Hr; subst r; clear Hr.
  destruct id as [u|]; [|discriminate He].
  destruct (validationError_Some u o detail []) as [kind Hk].
  rewrite Hk in He. cbn [bind] in He. inversion He as [[Hfmt]].
  apply String.eqb_neq in Hd. apply Hd.
  change ("%q is not a valid %sSPIFFE ID: internal error: unhandled id type %v")
    with ("%q is not a valid %sSPIFFE ID: " ++ "internal error: unhandled id type %v")
    in Hfmt.
  clear -Hfmt. cbn [append] in Hfmt.
  repeat match type of Hfmt with
         | String _ _ = String _ _ => injection Hfmt as _ Hfmt
         end.
  exact Hfmt.
Qed.

Ltac early_check_tac :=
  match goal with
  | H : reject _ _ _ = Some _ |- _ =>
      eapply reject_not_internal; [|exact H|eassumption]; reflexivity
  | H : None = Some _ |- _ => discriminate H
  | H : Some (Return _) = Some _ |- _ =>
      let Hi := fresh in
      inversion H; subst; cbn [bind] in *; intros Hi; destruct Hi as [? Hi];
      match goal with
      | He : Return (Some _) = Return (Some _) |- _ =>
          rewrite Hi in He; discriminate He
      end
  end.

(** The checks before the class check never report an internal error. *)
Lemma early_checks_not_internal (c : check) id o r e :
  In c [check_not_empty; check_scheme; check_no_user_info; check_host;
        check_no_port; check_no_fragment; check_no_query; check_trust_domain] ->
  c id o = Some r ->
  (x <- r ;; Return (Some x)) = Return (Some e) ->
  ~ internal_error e.
Proof.
  intros Hin Hc He. cbn [In] in Hin.
  repeat match type of Hin with
         | _ \/ _ => destruct Hin as [<-|Hin]
         | False => destruct Hin
         end;
    unfold check_not_empty, check_scheme, check_no_user_info, check_host,
      check_no_port, check_no_fragment, check_no_query, check_trust_domain,
      on_url, configuration_error, mismatch_error in Hc;
    destruct id as [u|];
    repeat match type of Hc with
           | context [if ?b then _ else _] => destruct b
           | context [match User ?u with Some _ => _ | None => _ end] =>
               destruct (User u)
           end.
  all: early_check_tac.
Qed.

(** The class check reports an internal error only for an unknown class
    selector. *)
Lemma check_class_internal id o r e :
  check_class id o = Some r ->
  (x <- r ;; Return (Some x)) = Return (Some e) ->
  internal_error e ->
  ~ known_class (opt_idType o).
Proof.
  intros Hc He Hi. unfold check_class, on_url in Hc.
  destruct id as [u|]; [|discriminate Hc].
  destruct (opt_idType o =? anyId)%Z eqn:H0; [discriminate Hc|].
  destruct (opt_idType o =? trustDomainId)%Z eqn:H1.
  { destruct (Path u =? ""); [discriminate Hc|].
    exfalso. revert Hi. early_check_tac. }
  destruct (opt_idType o =? workloadId)%Z eqn:H2.
  { exfalso. revert Hi.
    destruct (Path u =? ""); [early_check_tac|].
    destruct ((Path u =? "/spire") || HasPrefix (Path u) "/spire/"); early_check_tac. }
  destruct (opt_idType o =? serverId)%Z eqn:H4.
  { exfalso. revert Hi.
    destruct (Path u =? ""); [early_check_tac|].
    destruct (Path u =? "/spire/server"); early_check_tac. }
  destruct (opt_idType o =? agentId)%Z eqn:H3.
  { exfalso. revert Hi.
    destruct (Path u =? ""); [early_check_tac|].
    destruct (HasPrefix (Path u) "/spire/agent/"); early_check_tac. }
  apply Z.eqb_neq in H0, H1, H2, H3, H4.
  unfold known_class. tauto.
Qed.

Lemma unknown_class_eqb (t : idType) :
  ~ known_class t ->
  (t =? anyId)%Z = false /\ (t =? trustDomainId)%Z = false
  /\ (t =? workloadId)%Z = false /\ (t =? agentId)%Z = false
  /\ (t =? serverId)%Z = false.
Proof.
  unfold known_class. intros H.
  repeat split; apply Z.eqb_neq; intros ->; tauto.
Qed.

Lemma validationError_unknown_class u o format args :
  ~ known_class (opt_idType o) ->
  validationError (Some u) o format args =
  Return (fmt_Errorf ("%q is not a valid %sSPIFFE ID: " ++ format)
                     (AText (TextOf u) :: AString "" :: args)).
Proof.
  intros H. destruct (unknown_class_eqb _ H) as (_ & H1 & H2 & H3 & H4).
  unfold validationError. rewrite H1, H2, H3, H4. reflexivity.
Qed.

Lemma check_class_unknown u o :
  ~ known_class (opt_idType o) ->
  check_class (Some u) o =
  Some (validationError (Some u) o "internal error: unhandled id type %v"
                        [AIdType (opt_idType o)]).
Proof.
  intros H. destruct (unknown_class_eqb _ H) as (H0 & H1 & H2 & H3 & H4).
  unfold check_class, on_url. rewrite H0, H1, H2, H3, H4. reflexivity.
Qed.

(** C7 (as amended). Under a class selector that is not one of the five
    known classes no identity is ever accepted; an identity that passes the
    structural checks and the trust-domain check fails with the internal
    error "unhandled id type"; and that error is told apart from
    input-driven failures: a returned error is the internal one only under
    an unknown selector and only for a well-formed identity. *)
Theorem C7_unknown_class_selector mode :
  ~ known_class (opt_idType (options mode)) ->
  (forall id, ~ succeeds (ValidateSpiffeIDURL id mode))
  /\ (forall u,
         well_formed u ->
         (trustDomainRequired (options mode) = true ->
          trustDomain (options mode) <> "" /\ Host u = trustDomain (options mode)) ->
         ValidateSpiffeIDURL (Some u) mode =
         Return (Some (fmt_Errorf
                   "%q is not a valid %sSPIFFE ID: internal error: unhandled id type %v"
                   [AText (TextOf u); AString "";
                    AIdType (opt_idType (options mode))])))
  /\ (forall id mode' e,
         ValidateSpiffeIDURL id mode' = Return (Some e) ->
         internal_error e ->
         ~ known_class (opt_idType (options mode'))
         /\ exists u', id = Some u' /\ well_formed u').
Proof.
  intros Hunk. split; [|split].
  - intros [u|] Hs; [|discriminate Hs].
    apply ValidateSpiffeIDURL_succeeds in Hs. destruct Hs as (_ & _ & Hc).
    rewrite check_class_unknown in Hc by assumption. discriminate Hc.
  - intros u Hwf Htd.
    rewrite ValidateSpiffeIDURL_well_formed by assumption.
    apply check_trust_domain_pass in Htd.
    rewrite first_failure_pass by assumption.
    erewrite first_failure_fail by (now apply check_class_unknown).
    rewrite validationError_unknown_class by assumption. reflexivity.
  - intros id mode' e Hv Hi.
    rewrite ValidateSpiffeIDURL_first_failure in Hv.
    unfold checks_in_order in Hv. cbn [first_failure] in Hv.
    repeat match type of Hv with
           | match ?c id (options mode') with Some _ => _ | None => _ end = _ =>
               let Hc := fresh "Hc" in
               destruct (c id (options mode')) as [r|] eqn:Hc;
               [ first
                   [ exfalso; revert Hi;
                     eapply (early_checks_not_internal c); [|exact Hc|exact Hv];
                     cbn [In]; tauto
                   | idtac ]
               | ]
           end.
    + split; [eapply check_class_internal; eassumption|].
      destruct id as [u'|]; [|discriminate Hc].
      exists u'. split; [reflexivity|].
      apply (structural_checks_pass u' (options mode')).
      repeat (constructor; try assumption).
    + discriminate Hv.
Qed.

Lemma C7_unknown_class_selector_witness :
  ValidateSpiffeIDURL
    (Some (mkURL "spiffe" "" None "example.org" "/workload" "" false false "" "" ""))
    (mkMode (mkOptions "" false 7%Z))
  = Return (Some (fmt_Errorf
              "%q is not a valid %sSPIFFE ID: internal error: unhandled id type %v"
              [AText (TextOf (mkURL "spiffe" "" None "example.org" "/workload" ""
                                    false false "" "" ""));
               AString ""; AIdType 7%Z])).
Proof.
  refine (proj1 (proj2 (C7_unknown_class_selector (mkMode (mkOptions "" false 7%Z)) _))
            (mkURL "spiffe" "" None "example.org" "/workload" "" false false "" "" "")
            _ _).
  - unfold known_class. cbn. intros [H|[H|[H|[H|H]]]]; discriminate H.
  - unfold well_formed. cbn. repeat split. discriminate.
  - cbn. discriminate.
Defined.

(** C7, as stated, fails: under the unknown class selector [7] a
    well-formed identity validated against an empty required trust domain
    gets the configuration error, and one validated against a foreign
    trust domain gets the domain-mismatch error; neither is the internal
    error, because the trust-domain check runs before the class check. *)
Lemma C7_counterexample :
  ~ known_class 7%Z
  /\ ValidateSpiffeIDURL
       (Some (mkURL "spiffe" "" None "example.org" "/workload" "" false false "" "" ""))
       (mkMode (mkOptions "" true 7%Z))
     = Return (Some (errors_New "trust domain to validate against cannot be empty"))
  /\ ~ internal_error (errors_New "trust domain to validate against cannot be empty")
  /\ ValidateSpiffeIDURL
       (Some (mkURL "spiffe" "" None "example.org" "/workload" "" false false "" "" ""))
       (mkMode (mkOptions "example.com" true 7%Z))
     = Return (Some (fmt_Errorf "%q does not belong to trust domain %q"
                 [AURL (mkURL "spiffe" "" None "example.org" "/workload" ""
                              false false "" "" "");
                  AString "example.com"]))
  /\ ~ internal_error
         (fmt_Errorf "%q does not belong to trust domain %q"
            [AURL (mkURL "spiffe" "" None "example.org" "/workload" ""
                         false false "" "" "");
             AString "example.com"]).
Proof.
  split.
  { unfold known_class. intros [H|[H|[H|[H|H]]]]; discriminate H. }
  split; [reflexivity|]. split; [intros [args H]; discriminate H|].
  split; [reflexivity|]. intros [args H]. discriminate H.
Qed.

(** *** Prefixes of strings *)

Lemma slice_to_length (s : string) (n : nat) :
  String.length (slice_to s n) = Nat.min n (String.length s).
Proof.
  unfold slice_to. revert n.
  induction s as [|c s IH]; intros [|n]; cbn; try reflexivity.
  now rewrite IH.
Qed.

Lemma slice_to_slice_to (s : string) (i j : nat) :
  slice_to (slice_to s j) i = slice_to s (Nat.min i j).
Proof.
  unfold slice_to. revert i j.
  induction s as [|c s IH]; intros [|i] [|j]; cbn; try reflexivity.
  now rewrite IH.
Qed.

Lemma slice_to_all (s : string) (n : nat) :
  String.length s <= n -> slice_to s n = s.
Proof.
  unfold slice_to. revert n.
  induction s as [|c s IH]; intros [|n] H; cbn in *; try reflexivity; try lia.
  rewrite IH by lia. reflexivity.
Qed.

Lemma ToLower_length (s : string) : String.length (ToLower s) = String.length s.
Proof. induction s as [|c s IH]; cbn; [reflexivity | now rewrite IH]. Qed.

Lemma slice_to_min (s : string) (n : nat) :
  slice_to s n = slice_to s (Nat.min n (String.length s)).
Proof.
  rewrite <- slice_to_slice_to. now rewrite (slice_to_all s (String.length s)).
Qed.

(** A prefix of [s] that has six bytes is the first six bytes of [s]. *)
Lemma six_byte_prefix (s : string) (i : nat) :
  String.length (slice_to s i) = 6 -> slice_to s i = slice_to s 6.
Proof.
  intros H. rewrite slice_to_length in H.
  rewrite slice_to_min, H. reflexivity.
Qed.

(** *** The scheme that [url.Parse] reports *)

Lemma getScheme_prefix rawURL scheme rest :
  getScheme rawURL = inl (scheme, rest) ->
  scheme = "" \/ exists i, scheme = slice_to rawURL i.
Proof.
  unfold getScheme. destruct (getScheme_loop 0 rawURL); intros H; inversion H; subst; eauto.
Qed.

Lemma parse_Scheme rawURL viaRequest url :
  parse rawURL viaRequest = inl url ->
  Scheme url = "" \/ exists i, Scheme url = ToLower (slice_to rawURL i).
Proof.
  unfold parse.
  destruct (stringContainsCTLByte rawURL); [discriminate|].
  destruct ((rawURL =? "") && viaRequest); [discriminate|].
  destruct (rawURL =? "*"). { intros H; inversion H; subst. now left. }
  destruct (getScheme rawURL) as [[scheme rest]|e] eqn:Hg; [|discriminate].
  apply getScheme_prefix in Hg.
  assert (Hs : ToLower scheme = "" \/ exists i, ToLower scheme = ToLower (slice_to rawURL i)).
  { destruct Hg as [->|[i ->]]; [now left | right; now exists i]. }
  clear Hg.
  destruct (if HasSuffix rest "?" && (CountByte rest "?" =? 1)%nat
            then (true, slice_to rest (String.length rest - 1), "")
            else let '(before, after, _) := Cut rest "?" in (false, before, after))
    as [[forceQuery rest'] rawQuery].
  intros H.
  repeat match type of H with
         | (if ?b then _ else _) = _ => destruct b
         | (let '(_, _) := ?p in _) = _ => destruct p
         | match parseAuthority ?a with inl _ => _ | inr _ => _ end = _ =>
             destruct (parseAuthority a) as [[? ?]|?]
         | match setPath ?a with inl _ => _ | inr _ => _ end = _ =>
             destruct (setPath a) as [[? ?]|?]
         end;
    try discriminate H; inversion H; subst; exact Hs.
Qed.

Lemma Cut_before (s sep : string) :
  fst (fst (Cut s sep)) = s \/ exists i, fst (fst (Cut s sep)) = slice_to s i.
Proof. unfold Cut. destruct (Index s sep); cbn; eauto. Qed.

Lemma Parse_Scheme rawURL url :
  Parse rawURL = inl url ->
  Scheme url = "" \/ exists i, Scheme url = ToLower (slice_to rawURL i).
Proof.
  unfold Parse. pose proof (Cut_before rawURL "#") as Hcut.
  destruct (Cut rawURL "#") as [[u frag] found]. cbn [fst] in Hcut.
  destruct (parse u false) as [url0|e] eqn:Hp; [|discriminate].
  apply parse_Scheme in Hp.
  assert (Hs : Scheme url0 = "" \/ exists i, Scheme url0 = ToLower (slice_to rawURL i)).
  { destruct Hp as [Hp|[i Hp]]; [now left|right].
    destruct Hcut as [->|[j ->]]; [now exists i|].
    rewrite slice_to_slice_to in Hp. eauto. }
  destruct (frag =? ""); [intros H; inversion H; subst; exact Hs|].
  destruct (setFragment frag) as [[fragment rawFragment]|e]; [|discriminate].
  intros H; inversion H; subst. exact Hs.
Qed.

(** An identity string that parses with scheme ["spiffe"] begins with
    ["spiffe"] in some letter case. *)
Lemma Parse_spiffe_prefix rawURL url :
  Parse rawURL = inl url ->
  Scheme url = "spiffe" ->
  ToLower (slice_to rawURL 6) = "spiffe".
Proof.
  intros Hp Hs. apply Parse_Scheme in Hp. rewrite Hs in Hp.
  destruct Hp as [Hp|[i Hp]]; [discriminate Hp|].
  rewrite <- (six_byte_prefix rawURL i); [now symmetry|].
  rewrite <- ToLower_length, <- Hp. reflexivity.
Qed.

Lemma foreign_scheme_fails u mode :
  Scheme u <> "spiffe" -> fails (ValidateSpiffeIDURL (Some u) mode).
Proof.
  intros Hs. unfold fails, ValidateSpiffeIDURL.
  destruct (is_zero u).
  - destruct (validationError_Some u (get_validationOptions mode) "SPIFFE ID is empty" [])
      as [kind ->]. eexists. reflexivity.
  - apply String.eqb_neq in Hs. rewrite Hs. cbn [negb].
    destruct (validationError_Some u (get_validationOptions mode) "invalid scheme" [])
      as [kind ->]. eexists. reflexivity.
Qed.

(** C2 (as amended). For every validation mode, [ParseSpiffeID] fails with
    an error on every string that [url.Parse] rejects or whose scheme, as
    [url.Parse] reports it (lower-cased), is not ["spiffe"]; in particular
    on every string that does not begin with ["spiffe"] in some letter
    case. *)
Theorem C2_foreign_scheme_rejected (spiffeID : string) mode :
  ToLower (slice_to spiffeID 6) <> "spiffe"
  \/ (forall u, Parse spiffeID = inl u -> Scheme u <> "spiffe") ->
  exists e, ParseSpiffeID spiffeID mode = Return (None, Some e).
Proof.
  intros H. unfold ParseSpiffeID.
  destruct (Parse spiffeID) as [u|err] eqn:Hp; [|eexists; reflexivity].
  assert (Hs : Scheme u <> "spiffe").
  { destruct H as [H|H]; [|now apply H].
    intros Hs. apply H. eapply Parse_spiffe_prefix; eassumption. }
  destruct (foreign_scheme_fails u mode Hs) as [e ->].
  exists e. reflexivity.
Qed.

Lemma C2_foreign_scheme_rejected_witness :
  exists e, ParseSpiffeID "http://example.com/workload" AllowAny = Return (None, Some e).
Proof.
  apply (C2_foreign_scheme_rejected "http://example.com/workload" AllowAny).
  left. vm_compute. discriminate.
Defined.

(** C2, as stated, fails: ["SPIFFE://example.com/workload"] does not begin
    with ["spiffe"], and its scheme as written differs from ["spiffe"] by
    letter case, yet [ParseSpiffeID] accepts it under [AllowAny], because
    [url.Parse] lower-cases the scheme. *)
Lemma C2_counterexample :
  HasPrefix "SPIFFE://example.com/workload" "spiffe" = false
  /\ exists u,
       ParseSpiffeID "SPIFFE://example.com/workload" AllowAny = Return (Some u, None).
Proof. split; [reflexivity|]. eexists. reflexivity. Qed.

End Claims.

(* ===================================================================== *)
(** ** Properties of the signing pipeline of [disk] *)
(* ===================================================================== *)

Section Signing.

Variables (Name CertificateRequest PrivateKey Certificate : Type).
Variable ParseCertificateRequest : list Byte.byte -> option CertificateRequest.
Variable CheckSignature : CertificateRequest -> bool.
Variable csr_subject : CertificateRequest -> Name.
Variable cert_subject : Certificate -> Name.
Variable CreateCertificate :
  disk.template Name -> CertificateRequest -> Certificate -> PrivateKey ->
  option (list Byte.byte).

Local Abbreviation SubmitCSR :=
  (disk.SubmitCSR ParseCertificateRequest CheckSignature csr_subject cert_subject
                  CreateCertificate).
Local Abbreviation acceptable :=
  (disk.acceptable ParseCertificateRequest CheckSignature).

(** C8. For every CSR, [SubmitCSR] returns either a certificate with a nil
    error or a nil response with an error; for every malformed or tampered
    CSR (one that does not decode, or whose self-signature does not
    verify) it returns an error and no certificate; and a returned
    certificate is never partial or a placeholder: it is the output of the
    signing primitive on the fully derived leaf, under the active CA
    certificate and key, for a CSR that decoded and verified. *)
Theorem C8_certificate_or_error
    (active : option (disk.CaKeyMaterial PrivateKey Certificate))
    (now : Z) (serial : N) (csrBytes : list Byte.byte) :
  ((exists der, SubmitCSR active now serial csrBytes = (Some der, None))
   \/ (exists err, SubmitCSR active now serial csrBytes = (None, Some err)))
  /\ (acceptable csrBytes = false ->
      exists err, SubmitCSR active now serial csrBytes = (None, Some err))
  /\ (forall der,
         fst (SubmitCSR active now serial csrBytes) = Some der ->
         exists ca csr,
           active = Some ca
           /\ ParseCertificateRequest csrBytes = Some csr
           /\ CheckSignature csr = true
           /\ CreateCertificate
                (disk.mkTemplate (csr_subject csr) serial now
                   (now + disk.TTL (disk.config ca)) (cert_subject (disk.cert ca)))
                csr (disk.cert ca) (disk.key ca) = Some der).
Proof.
  unfold disk.SubmitCSR, disk.acceptable.
  destruct active as [ca|].
  - destruct (ParseCertificateRequest csrBytes) as [csr|].
    + destruct (CheckSignature csr) eqn:Hsig; cbn [negb].
      * destruct (CreateCertificate _ csr (disk.cert ca) (disk.key ca)) as [der|] eqn:Hsign.
        -- split; [left; eexists; reflexivity|]. split; [discriminate|].
           intros der' H. cbn [fst] in H. inversion H; subst der'.
           exists ca, csr. repeat split; assumption.
        -- split; [right; eexists; reflexivity|].
           split; [discriminate | intros der H; discriminate H].
      * split; [right; eexists; reflexivity|].
        split; [intros _; eexists; reflexivity | intros der H; discriminate H].
    + split; [right; eexists; reflexivity|].
      split; [intros _; eexists; reflexivity | intros der H; discriminate H].
  - split; [right; eexists; reflexivity|].
    split; [intros _; eexists; reflexivity | intros der H; discriminate H].
Qed.

End Signing.

(** C8 at a concrete input: with a decoder that accepts only a non-empty
    encoding, the empty CSR yields an error and no certificate. *)
Lemma C8_certificate_or_error_witness :
  exists err,
    disk.SubmitCSR
      (fun bytes : list Byte.byte =>
         match bytes with [] => None | _ => Some bytes end)
      (fun _ => true) (fun _ => "subject") (fun _ : unit => "issuer")
      (fun _ csr _ (_ : unit) => Some csr)
      (Some (disk.mkMaterial tt tt (disk.mkConfiguration "localhost" 3600 "key.pem" "cert.pem")))
      0%Z 1%N []
    = (None, Some err).
Proof.
  refine (proj1 (proj2 (C8_certificate_or_error _ _ _ _ _ _ _ _ _ _ _ _ _)) _).
  reflexivity.
Defined.

(* ===================================================================== *)
(** ** Further properties of [idutil] *)
(* ===================================================================== *)

Section Modes.

Implicit Types (u : URL) (mode : ValidationMode) (o : validationOptions).

Lemma check_class_any u o :
  opt_idType o = anyId -> check_class (Some u) o = None.
Proof. intros Ht. unfold check_class, on_url. rewrite Ht. reflexivity. Qed.

Lemma check_class_trustDomain u o :
  opt_idType o = trustDomainId ->
  check_class (Some u) o = None <-> Path u = "".
Proof.
  intros Ht. unfold check_class, on_url, reject. rewrite Ht.
  cbn [Z.eqb trustDomainId anyId Pos.eqb].
  destruct (Path u =? "") eqn:Hp.
  - apply String.eqb_eq in Hp. tauto.
  - apply String.eqb_neq in Hp. split; [discriminate | contradiction].
Qed.

(** Under a mode that requires trust domain [D], the trust-domain check
    passes exactly for the identities of a non-empty [D]. *)
Lemma check_trust_domain_required u (D : string) (t : idType) :
  check_trust_domain (Some u) (mkOptions D true t) = None <->
  D <> "" /\ Host u = D.
Proof.
  rewrite check_trust_domain_pass. cbn [trustDomainRequired trustDomain].
  split; [intros H; now apply H | intros H _; exact H].
Qed.

Lemma check_trust_domain_not_required u (D : string) (t : idType) :
  check_trust_domain (Some u) (mkOptions D false t) = None.
Proof. reflexivity. Qed.

Lemma well_formed_Host u (D : string) : well_formed u -> Host u = D -> D <> "".
Proof. intros (_ & _ & Hne & _) <-. exact Hne. Qed.

(** X1. [AllowAny] accepts exactly the structurally well-formed
    identities. *)
Theorem AllowAny_accepts u :
  succeeds (ValidateSpiffeIDURL (Some u) AllowAny) <->
  Scheme u = "spiffe" /\ User u = None /\ Host u <> "" /\ Port u = ""
  /\ Fragment u = "" /\ RawQuery u = "".
Proof.
  rewrite ValidateSpiffeIDURL_succeeds. unfold AllowAny, no_options. cbn [options].
  rewrite check_class_any by reflexivity.
  unfold well_formed. pose proof (check_trust_domain_not_required u "" anyId). tauto.
Qed.

(** X2. [AllowAnyInTrustDomain D] accepts exactly the well-formed
    identities whose host is [D], whatever their path. *)
Theorem AllowAnyInTrustDomain_accepts u (D : string) :
  succeeds (ValidateSpiffeIDURL (Some u) (AllowAnyInTrustDomain D)) <->
  well_formed u /\ Host u = D.
Proof.
  rewrite ValidateSpiffeIDURL_succeeds. unfold AllowAnyInTrustDomain. cbn [options].
  rewrite check_trust_domain_required, check_class_any by reflexivity.
  split; [tauto|]. intros (Hwf & Hh). pose proof (well_formed_Host u D Hwf Hh). tauto.
Qed.

(** X3. The trust-domain class accepts exactly the well-formed identities
    with an empty path: [AllowTrustDomain D] those of host [D],
    [AllowAnyTrustDomain] those of any host. *)
Theorem AllowTrustDomain_accepts u (D : string) :
  (succeeds (ValidateSpiffeIDURL (Some u) (AllowTrustDomain D)) <->
   well_formed u /\ Host u = D /\ Path u = "")
  /\ (succeeds (ValidateSpiffeIDURL (Some u) AllowAnyTrustDomain) <->
      well_formed u /\ Path u = "").
Proof.
  split; rewrite ValidateSpiffeIDURL_succeeds;
    unfold AllowTrustDomain, AllowAnyTrustDomain; cbn [options].
  - rewrite check_trust_domain_required, check_class_trustDomain by reflexivity.
    split; [tauto|]. intros (Hwf & Hh & Hp).
    pose proof (well_formed_Host u D Hwf Hh). tauto.
  - rewrite check_class_trustDomain by reflexivity.
    pose proof (check_trust_domain_not_required u "" trustDomainId). tauto.
Qed.

(** X4. The server class: [AllowTrustDomainServer D] accepts exactly the
    well-formed identities of host [D] with path ["/spire/server"], and
    [AllowAnyTrustDomainServer] those of any host. *)
Theorem AllowTrustDomainServer_accepts u (D : string) :
  (succeeds (ValidateSpiffeIDURL (Some u) (AllowTrustDomainServer D)) <->
   well_formed u /\ Host u = D /\ Path u = "/spire/server")
  /\ (succeeds (ValidateSpiffeIDURL (Some u) AllowAnyTrustDomainServer) <->
      well_formed u /\ Path u = "/spire/server").
Proof.
  split; rewrite ValidateSpiffeIDURL_succeeds;
    unfold AllowTrustDomainServer, AllowAnyTrustDomainServer; cbn [options].
  - rewrite check_trust_domain_required, check_class_server by reflexivity.
    split; [tauto|]. intros (Hwf & Hh & Hp).
    pose proof (well_formed_Host u D Hwf Hh). tauto.
  - rewrite check_class_server by reflexivity.
    pose proof (check_trust_domain_not_required u "" serverId). tauto.
Qed.

(** X5. The agent class: [AllowTrustDomainAgent D] accepts exactly the
    well-formed identities of host [D] whose path starts with
    ["/spire/agent/"], and [AllowAnyTrustDomainAgent] those of any host. *)
Theorem AllowTrustDomainAgent_accepts u (D : string) :
  (succeeds (ValidateSpiffeIDURL (Some u) (AllowTrustDomainAgent D)) <->
   well_formed u /\ Host u = D /\ HasPrefix (Path u) "/spire/agent/" = true)
  /\ (succeeds (ValidateSpiffeIDURL (Some u) AllowAnyTrustDomainAgent) <->
      well_formed u /\ HasPrefix (Path u) "/spire/agent/" = true).
Proof.
  split; rewrite ValidateSpiffeIDURL_succeeds;
    unfold AllowTrustDomainAgent, AllowAnyTrustDomainAgent; cbn [options].
  - rewrite check_trust_domain_required, check_class_agent by reflexivity.
    split; [tauto|]. intros (Hwf & Hh & Hp).
    pose proof (well_formed_Host u D Hwf Hh). tauto.
  - rewrite check_class_agent by reflexivity.
    pose proof (check_trust_domain_not_required u "" agentId). tauto.
Qed.

(** X6. [AllowAnyTrustDomainWorkload] accepts exactly the well-formed
    identities, of any host, whose path is non-empty and lies outside the
    reserved namespace. *)
Theorem AllowAnyTrustDomainWorkload_accepts u :
  succeeds (ValidateSpiffeIDURL (Some u) AllowAnyTrustDomainWorkload) <->
  well_formed u /\ Path u <> "" /\ isReservedPath (Path u) = false.
Proof.
  rewrite ValidateSpiffeIDURL_succeeds.
  unfold AllowAnyTrustDomainWorkload; cbn [options].
  rewrite check_class_workload by reflexivity.
  pose proof (check_trust_domain_not_required u "" workloadId).
  unfold isReservedPath. rewrite orb_false_iff, String.eqb_neq. tauto.
Qed.

End Modes.

Section Paths.

Lemma prefix_append (a b s : string) :
  String.prefix (a ++ b) s = true -> String.prefix a s = true.
Proof.
  revert s. induction a as [|c a IH]; intros s H; [destruct s; reflexivity|].
  destruct s as [|d s]; [discriminate H|].
  cbn in *. destruct (ascii_dec c d); [now apply IH | discriminate H].
Qed.

Lemma isServerPath_reserved (path : string) :
  isServerPath path = true -> isReservedPath path = true.
Proof.
  unfold isServerPath, isReservedPath. intros H.
  apply String.eqb_eq in H. subst path. reflexivity.
Qed.

Lemma isAgentPath_reserved (path : string) :
  isAgentPath path = true -> isReservedPath path = true.
Proof.
  unfold isAgentPath, isReservedPath, HasPrefix. intros H.
  apply orb_true_iff. right. now apply (prefix_append "/spire/" "agent/").
Qed.

Lemma isServerPath_not_agent (path : string) :
  isServerPath path = true -> isAgentPath path = false.
Proof.
  unfold isServerPath. intros H. apply String.eqb_eq in H. subst path. reflexivity.
Qed.

(** X8. The server path and every agent path lie inside the reserved
    namespace, and the server path is not an agent path. *)
Theorem server_and_agent_paths_reserved (path : string) :
  (isServerPath path = true \/ isAgentPath path = true ->
   isReservedPath path = true)
  /\ (isServerPath path = true -> isAgentPath path = false).
Proof.
  split.
  - intros [H|H]; [now apply isServerPath_reserved | now apply isAgentPath_reserved].
  - apply isServerPath_not_agent.
Qed.

Lemma server_and_agent_paths_reserved_witness :
  isReservedPath "/spire/agent/node-1" = true.
Proof.
  apply (proj1 (server_and_agent_paths_reserved "/spire/agent/node-1")).
  right. reflexivity.
Defined.

End Paths.

Section Classes.

Implicit Types (u : URL) (mode : ValidationMode) (o : validationOptions).

(** What passing the class check says about the path, class by class. *)
Lemma check_class_pass_cases u o :
  check_class (Some u) o = None ->
  opt_idType o = anyId
  \/ (opt_idType o = trustDomainId /\ Path u = "")
  \/ (opt_idType o = workloadId /\ Path u <> "" /\ isReservedPath (Path u) = false)
  \/ (opt_idType o = serverId /\ isServerPath (Path u) = true)
  \/ (opt_idType o = agentId /\ isAgentPath (Path u) = true).
Proof.
  intros H.
  destruct (opt_idType o =? anyId)%Z eqn:H0; [apply Z.eqb_eq in H0; tauto|].
  destruct (opt_idType o =? trustDomainId)%Z eqn:H1.
  { apply Z.eqb_eq in H1. apply check_class_trustDomain in H; tauto. }
  destruct (opt_idType o =? workloadId)%Z eqn:H2.
  { apply Z.eqb_eq in H2. apply check_class_workload in H; [|assumption].
    unfold isReservedPath. rewrite orb_false_iff, String.eqb_neq. tauto. }
  destruct (opt_idType o =? serverId)%Z eqn:H4.
  { apply Z.eqb_eq in H4. apply check_class_server in H; [|assumption].
    unfold isServerPath. rewrite String.eqb_eq. tauto. }
  destruct (opt_idType o =? agentId)%Z eqn:H3.
  { apply Z.eqb_eq in H3. apply check_class_agent in H; [|assumption].
    unfold isAgentPath. tauto. }
  exfalso. rewrite check_class_unknown in H; [discriminate H|].
  apply Z.eqb_neq in H0, H1, H2, H3, H4. unfold known_class. tauto.
Qed.

End Classes.

Section Composition.

Implicit Types (u : URL) (mode : ValidationMode) (o : validationOptions).

(** X9. The classes are mutually exclusive: no identity is accepted under
    two modes whose class selectors differ, unless one of them is the
    unconstrained class [anyId]. *)
Theorem classes_are_exclusive u mode1 mode2 :
  opt_idType (options mode1) <> opt_idType (options mode2) ->
  opt_idType (options mode1) <> anyId ->
  opt_idType (options mode2) <> anyId ->
  succeeds (ValidateSpiffeIDURL (Some u) mode1) ->
  ~ succeeds (ValidateSpiffeIDURL (Some u) mode2).
Proof.
  intros Hne H1 H2 Hs1 Hs2.
  apply ValidateSpiffeIDURL_succeeds in Hs1, Hs2.
  destruct Hs1 as (_ & _ & Hc1), Hs2 as (_ & _ & Hc2).
  apply check_class_pass_cases in Hc1, Hc2.
  assert (Hres : isServerPath (Path u) = true \/ isAgentPath (Path u) = true ->
                 isReservedPath (Path u) = true).
  { intros [H|H]; [now apply isServerPath_reserved | now apply isAgentPath_reserved]. }
  pose proof (isServerPath_not_agent (Path u)) as Hsa.
  destruct Hc1 as [E1|[[E1 P1]|[[E1 [N1 R1]]|[[E1 P1]|[E1 P1]]]]];
    destruct Hc2 as [E2|[[E2 P2]|[[E2 [N2 R2]]|[[E2 P2]|[E2 P2]]]]];
    try congruence;
    try (rewrite Hres in * by tauto; discriminate);
    try (rewrite P1 in *; discriminate);
    try (rewrite P2 in *; discriminate).
  - rewrite (Hsa P1) in P2. discriminate.
  - rewrite (Hsa P2) in P1. discriminate.
Qed.

Lemma classes_are_exclusive_witness :
  ~ succeeds (ValidateSpiffeIDURL
                (Some (mkURL "spiffe" "" None "example.org" "/spire/server" ""
                             false false "" "" ""))
                AllowAnyTrustDomainWorkload).
Proof.
  apply (classes_are_exclusive
           (mkURL "spiffe" "" None "example.org" "/spire/server" ""
                  false false "" "" "")
           (AllowTrustDomainServer "example.org") AllowAnyTrustDomainWorkload).
  - cbn. discriminate.
  - cbn. discriminate.
  - cbn. discriminate.
  - reflexivity.
Defined.

Lemma check_class_same_class u o1 o2 :
  opt_idType o1 = opt_idType o2 ->
  check_class (Some u) o1 = None -> check_class (Some u) o2 = None.
Proof.
  intros Ht H. apply check_class_pass_cases in H. rewrite Ht in H.
  destruct H as [E|[[E P]|[[E [N R]]|[[E P]|[E P]]]]].
  - now apply check_class_any.
  - now apply check_class_trustDomain.
  - apply check_class_workload; [assumption|].
    unfold isReservedPath in R. rewrite orb_false_iff, String.eqb_neq in R. tauto.
  - apply check_class_server; [assumption|]. now apply String.eqb_eq.
  - now apply check_class_agent.
Qed.

(** X10. Dropping the trust-domain requirement only widens a mode: an
    identity accepted under any mode is accepted under the any-domain mode
    of the same class, under the same class restricted to the identity's
    own host, and under [AllowAny]. *)
Theorem accepted_under_wider_modes u mode :
  succeeds (ValidateSpiffeIDURL (Some u) mode) ->
  succeeds (ValidateSpiffeIDURL (Some u)
              (mkMode (mkOptions "" false (opt_idType (options mode)))))
  /\ succeeds (ValidateSpiffeIDURL (Some u)
                 (mkMode (mkOptions (Host u) true (opt_idType (options mode)))))
  /\ succeeds (ValidateSpiffeIDURL (Some u) AllowAny).
Proof.
  intros Hs. apply ValidateSpiffeIDURL_succeeds in Hs. destruct Hs as (Hwf & _ & Hc).
  repeat split; apply ValidateSpiffeIDURL_succeeds; cbn [options].
  - split; [assumption|]. split; [reflexivity|].
    now apply (check_class_same_class u (options mode)).
  - split; [assumption|]. split.
    + apply check_trust_domain_required. split; [|reflexivity].
      now apply (well_formed_Host u (Host u)).
    + now apply (check_class_same_class u (options mode)).
  - split; [assumption|]. split; [reflexivity|]. now apply check_class_any.
Qed.

Lemma accepted_under_wider_modes_witness :
  succeeds (ValidateSpiffeIDURL
              (Some (mkURL "spiffe" "" None "example.org" "/spire/agent/n1" ""
                           false false "" "" ""))
              AllowAny).
Proof.
  apply (accepted_under_wider_modes
           (mkURL "spiffe" "" None "example.org" "/spire/agent/n1" ""
                  false false "" "" "")
           (AllowTrustDomainAgent "example.org")).
  reflexivity.
Defined.

End Composition.

Section Errors.

Implicit Types (u : URL) (mode : ValidationMode) (o : validationOptions).

(** The result of a run of checks: either all pass, or the first one that
    does not pass decides. *)
Lemma first_failure_cases (cs : list check) (id : option URL) o :
  first_failure cs id o = Return None
  \/ exists (c : check) r,
       In c cs /\ c id o = Some r
       /\ first_failure cs id o = (e <- r ;; Return (Some e)).
Proof.
  induction cs as [|c cs IH]; [now left|].
  cbn [first_failure]. destruct (c id o) as [r|] eqn:Hc.
  - right. exists c, r. cbn [In]. tauto.
  - destruct IH as [IH|(c' & r & Hin & Hc' & IH)]; [now left|].
    right. exists c', r. cbn [In]. tauto.
Qed.

Lemma reject_error_about u o detail r :
  reject (Some u) o detail = Some r -> exists e, r = Return e /\ error_about u o e.
Proof.
  unfold reject. intros H. inversion H; subst r; clear H.
  destruct (validationError_Some u o detail []) as [kind ->].
  eexists. split; [reflexivity|]. right. right. eauto.
Qed.

Lemma check_error_about (c : check) u o r :
  In c checks_in_order -> c (Some u) o = Some r ->
  exists e, r = Return e /\ error_about u o e.
Proof.
  unfold checks_in_order. cbn [In]. intros Hin Hc.
  repeat match type of Hin with
         | _ \/ _ => destruct Hin as [<-|Hin]
         | False => destruct Hin
         end;
    unfold check_not_empty, check_scheme, check_no_user_info, check_host,
      check_no_port, check_no_fragment, check_no_query, check_trust_domain,
      check_class, on_url, configuration_error, mismatch_error in Hc;
    repeat match type of Hc with
           | context [if ?b then _ else _] => destruct b
           | context [match User ?v with Some _ => _ | None => _ end] =>
               destruct (User v)
           end;
    try discriminate Hc;
    try (eapply reject_error_about; eassumption);
    try (inversion Hc; subst r; eexists; split; [reflexivity|];
         unfold error_about; tauto).
  inversion Hc; subst r.
  destruct (validationError_Some u o "internal error: unhandled id type %v"
              [AIdType (opt_idType o)]) as [kind ->].
  eexists. split; [reflexivity|]. right. right. eauto.
Qed.

(** A non-nil identity never makes [ValidateSpiffeIDURL] panic: it
    returns nil or an error about that identity. *)
Lemma ValidateSpiffeIDURL_cases u mode :
  ValidateSpiffeIDURL (Some u) mode = Return None
  \/ exists e, ValidateSpiffeIDURL (Some u) mode = Return (Some e)
               /\ error_about u (options mode) e.
Proof.
  rewrite ValidateSpiffeIDURL_first_failure.
  destruct (first_failure_cases checks_in_order (Some u) (options mode))
    as [H|(c & r & Hin & Hc & H)]; [now left|].
  right. destruct (check_error_about c u (options mode) r Hin Hc) as (e & -> & He).
  exists e. split; [exact H | exact He].
Qed.



End Errors.

Section TrustDomainErrors.

Implicit Types (u : URL) (mode : ValidationMode) (o : validationOptions).

Lemma reject_validation_error u o detail r e :
  reject (Some u) o detail = Some r ->
  (x <- r ;; Return (Some x)) = Return (Some e) ->
  exists kind,
    e = fmt_Errorf ("%q is not a valid %sSPIFFE ID: " ++ detail)
                   [AText (TextOf u); AString kind].
Proof.
  unfold reject. intros H He. inversion H; subst r; clear H.
  destruct (validationError_Some u o detail []) as [kind Hk].
  rewrite Hk in He. cbn [bind] in He. inversion He. eauto.
Qed.

(** An identity is well-formed, or it is not and validation reports one of
    the structural rules, whatever the mode. *)
Lemma structural_cases u mode :
  well_formed u
  \/ (~ well_formed u
      /\ exists kind detail,
           ValidateSpiffeIDURL (Some u) mode =
           Return (Some (fmt_Errorf ("%q is not a valid %sSPIFFE ID: " ++ detail)
                                    [AText (TextOf u); AString kind]))).
Proof.
  rewrite ValidateSpiffeIDURL_first_failure. unfold checks_in_order.
  assert (Hnot : forall c : check,
             In c [check_not_empty; check_scheme; check_no_user_info; check_host;
                   check_no_port; check_no_fragment; check_no_query] ->
             c (Some u) (options mode) <> None -> ~ well_formed u).
  { intros c Hin Hc Hwf. apply (structural_checks_pass u (options mode)) in Hwf.
    rewrite Forall_forall in Hwf. now apply Hc, Hwf. }
  assert (Hrej : forall (c : check) r,
             In c [check_not_empty; check_scheme; check_no_user_info; check_host;
                   check_no_port; check_no_fragment; check_no_query] ->
             c (Some u) (options mode) = Some r ->
             exists detail, reject (Some u) (options mode) detail = Some r).
  { intros c r Hin Hc. cbn [In] in Hin.
    repeat match type of Hin with
           | _ \/ _ => destruct Hin as [<-|Hin]
           | False => destruct Hin
           end;
      unfold check_not_empty, check_scheme, check_no_user_info, check_host,
        check_no_port, check_no_fragment, check_no_query, on_url in Hc;
      repeat match type of Hc with
             | context [if ?b then _ else _] => destruct b
             | context [match User ?v with Some _ => _ | None => _ end] =>
                 destruct (User v)
             end;
      try discriminate Hc; eauto. }
  repeat match goal with
         | |- context [first_failure (?c :: ?cs) _ _] =>
             lazymatch cs with
             | [] => fail
             | _ =>
                 let Hc := fresh "Hc" in
                 destruct (c (Some u) (options mode)) as [r|] eqn:Hc;
                 [ right; split;
                   [ apply (Hnot c); [cbn [In]; tauto | congruence]
                   | destruct (Hrej c r) as [detail Hd]; [cbn [In]; tauto | exact Hc |];
                     rewrite (first_failure_fail c _ _ _ r Hc);
                     destruct (validationError_Some u (options mode) detail [])
                       as [kind Hk];
                     unfold reject in Hd; injection Hd as <-; rewrite Hk;
                     exists kind, detail; reflexivity ]
                 | rewrite (first_failure_pass c _ _ _ Hc) ]
             end
         end.
  left. apply (structural_checks_pass u (options mode)).
  repeat (constructor; try assumption).
Qed.

End TrustDomainErrors.

Section Outcomes.

Implicit Types (u : URL) (mode : ValidationMode) (o : validationOptions).

Lemma check_class_validation_error u o r e :
  check_class (Some u) o = Some r ->
  (x <- r ;; Return (Some x)) = Return (Some e) ->
  exists detail args,
    e = fmt_Errorf ("%q is not a valid %sSPIFFE ID: " ++ detail) args.
Proof.
  intros Hc He. unfold check_class, on_url in Hc.
  repeat match type of Hc with
         | context [if ?b then _ else _] => destruct b
         end;
    try discriminate Hc;
    try (destruct (reject_validation_error _ _ _ _ _ Hc He) as [kind ->]; eauto).
  all: injection Hc as <-.
  all: destruct (validationError_Some u o "internal error: unhandled id type %v"
                   [AIdType (opt_idType o)]) as [kind Hk].
  all: rewrite Hk in He; cbn [bind] in He; injection He as <-.
  all: exists "internal error: unhandled id type %v"; eexists; reflexivity.
Qed.

(** X7. A mode that requires the empty trust domain accepts nothing:
    every identity fails under it, whatever the class. *)
Theorem empty_required_domain_accepts_nothing u (t : idType) :
  fails (ValidateSpiffeIDURL (Some u) (mkMode (mkOptions "" true t))).
Proof.
  destruct (ValidateSpiffeIDURL_cases u (mkMode (mkOptions "" true t)))
    as [Hv|(e & Hv & _)]; [|now exists e].
  apply (ValidateSpiffeIDURL_succeeds u) in Hv. cbn [options] in Hv.
  rewrite check_trust_domain_required in Hv. tauto.
Qed.

(** X12. The two errors of the trust-domain check arise exactly as
    follows: the configuration error when the identity is well-formed and
    the mode requires an empty trust domain; the domain mismatch when the
    identity is well-formed and the mode requires a non-empty trust domain
    other than the identity's host. *)
Theorem trust_domain_errors u mode :
  (ValidateSpiffeIDURL (Some u) mode =
     Return (Some (errors_New "trust domain to validate against cannot be empty"))
   <-> well_formed u
       /\ trustDomainRequired (options mode) = true
       /\ trustDomain (options mode) = "")
  /\ (ValidateSpiffeIDURL (Some u) mode =
        Return (Some (fmt_Errorf "%q does not belong to trust domain %q"
                                 [AURL u; AString (trustDomain (options mode))]))
      <-> well_formed u
          /\ trustDomainRequired (options mode) = true
          /\ trustDomain (options mode) <> ""
          /\ Host u <> trustDomain (options mode)).
Proof.
  destruct (structural_cases u mode) as [Hwf|(Hn & kind & detail & Hv)].
  - rewrite ValidateSpiffeIDURL_well_formed by assumption.
    cbn [first_failure]. unfold check_trust_domain, on_url.
    destruct (trustDomainRequired (options mode)); cbn [negb].
    + destruct (trustDomain (options mode) =? "") eqn:Htd.
      * apply String.eqb_eq in Htd. cbn [bind configuration_error].
        split; split; try tauto; try discriminate.
      * apply String.eqb_neq in Htd.
        destruct (Host u =? trustDomain (options mode)) eqn:Hh.
        -- apply String.eqb_eq in Hh.
           destruct (check_class (Some u) (options mode)) as [r|] eqn:Hc.
           ++ split; (split; [|tauto]); intros He; exfalso;
                destruct (check_class_validation_error _ _ _ _ Hc He)
                  as (d & a & Hd);
                cbn [append] in Hd; discriminate Hd.
           ++ split; (split; [discriminate | tauto]).
        -- apply String.eqb_neq in Hh. cbn [bind mismatch_error].
           split; split; try tauto; try discriminate.
    + destruct (check_class (Some u) (options mode)) as [r|] eqn:Hc.
      * split; (split; [|intros (_ & H & _); discriminate H]); intros He; exfalso;
          destruct (check_class_validation_error _ _ _ _ Hc He) as (d & a & Hd);
          cbn [append] in Hd; discriminate Hd.
      * split; (split; [discriminate | intros (_ & H & _); discriminate H]).
  - rewrite Hv. split; (split; [|tauto]); intros He; exfalso;
      cbn [append] in He; discriminate He.
Qed.

(** With a non-nil mode the calls are the functions at that mode. *)
Lemma nilable_Some (id : option URL) (spiffeID : string) (m : ValidationMode) :
  ValidateSpiffeIDURL_nilable id (Some m) = ValidateSpiffeIDURL id m
  /\ ParseSpiffeID_nilable spiffeID (Some m) = ParseSpiffeID spiffeID m
  /\ ValidateSpiffeID_nilable spiffeID (Some m) = ValidateSpiffeID spiffeID m.
Proof. repeat split. Qed.



(** X14. The empty string is rejected under every mode with the
    "SPIFFE ID is empty" validation error: [url.Parse] maps it to the zero
    URL. *)
Theorem empty_string_rejected mode :
  exists kind,
    ParseSpiffeID "" mode =
    Return (None,
            Some (fmt_Errorf "%q is not a valid %sSPIFFE ID: SPIFFE ID is empty"
                             [AText (TextOf zero); AString kind])).
Proof.
  unfold ParseSpiffeID. cbn [Parse]. change (Parse "") with (@inl URL Error zero).
  unfold ValidateSpiffeIDURL. cbn [is_zero zero].
  destruct (validationError_Some zero (get_validationOptions mode) "SPIFFE ID is empty" [])
    as [kind ->].
  exists kind. reflexivity.
Qed.

End Outcomes.
